(** * Analog-year ranking of [main.py] ([get_analog])

    A shallow embedding of the analog selector of the snowfall predictor and
    the properties of its specification.

    Conventions of the embedding.
    - A Python [int] is a [Z].  An observation (a JSON number, a Python
      [float]) is a rational [Q]: the arithmetic is the exact one.  The
      rounding of the machine representation, its overflow (the
      [OverflowError] of a power out of range, an infinite sum or mean) and
      its underflow to zero are not modelled; the theorems of the claims
      are about what is computed from what, in which order, and which
      lookups are made.
    - A [dict] is an association list in insertion order with at most one
      binding per key ([dict_set] overwrites in place, as CPython does).
    - An exception is a value of [error]; a computation that may raise
      returns a [result]. *)

From Stdlib Require Import String Ascii.
From Stdlib Require DecimalString DecimalZ DecimalPos.
From Stdlib Require Import ZArith QArith Qabs Qpower List Bool Lia Lqa.
From Stdlib Require Import Permutation Sorted.
Import ListNotations.

Set Implicit Arguments.
Local Open Scope Z_scope.

(** ** Exceptions *)

Inductive error : Type :=
| KeyError (key : Z)
| ValueError
| ZeroDivisionError.

Inductive result (A : Type) : Type :=
| Ok (a : A)
| Err (e : error).

Arguments Ok {A} a.
Arguments Err {A} e.

Definition bind {A B : Type} (r : result A) (k : A -> result B) : result B :=
  match r with
  | Ok a => k a
  | Err e => Err e
  end.

Notation "x <- r ;; k" := (bind r (fun x => k))
  (at level 61, r at next level, right associativity).
Notation "' p <- r ;; k" := (bind r (fun x => let p := x in k))
  (at level 61, p pattern, r at next level, right associativity).

(** [[f(x) for x in l]] where [f] may raise: left to right, the first
    exception aborts. *)
Fixpoint mapM {A B : Type} (f : A -> result B) (l : list A) : result (list B) :=
  match l with
  | [] => Ok []
  | x :: l' => y <- f x ;; ys <- mapM f l' ;; Ok (y :: ys)
  end.

(** [for x in l: st = body(st, x)] where the body may raise. *)
Fixpoint foldM {A S : Type} (body : S -> A -> result S) (l : list A) (st : S)
  : result S :=
  match l with
  | [] => Ok st
  | x :: l' => st' <- body st x ;; foldM body l' st'
  end.

(** ** Python built-ins *)

(** [range(a, b)]: [a, a+1, ..., b-1], empty when [b <= a]. *)
Definition range (a b : Z) : list Z :=
  map (fun i => a + Z.of_nat i) (seq 0 (Z.to_nat (b - a))).

(** [sum(l)]: starts from 0 and adds from the left (exactly: no
    rounding). *)
Definition sum (l : list Q) : Q := fold_left Qplus l 0%Q.

(** [l[:k]] for an integer [k]: a negative [k] counts from the end. *)
Definition slice_to {A : Type} (k : Z) (l : list A) : list A :=
  if k <? 0 then firstn (Z.to_nat (Z.of_nat (length l) + k)) l
  else firstn (Z.to_nat k) l.

(** [l.index(x)]: position of the first occurrence, [ValueError] when there
    is none. *)
Fixpoint index (x : Z) (l : list Z) : result nat :=
  match l with
  | [] => Err ValueError
  | y :: l' => if x =? y then Ok O else i <- index x l' ;; Ok (S i)
  end.

(** [x ** n] for a number [x] and an [int] [n]: zero cannot be raised to a
    negative power.  The power is the exact one: the [OverflowError] of a
    float power out of range and its underflow to zero are not modelled. *)
Definition py_pow (x : Q) (n : Z) : result Q :=
  if (n <? 0) && Qeq_bool x 0 then Err ZeroDivisionError
  else Ok (Qpower x n).

(** [x < y] on numbers, the only comparison [sorted] uses. *)
Definition Qltb (x y : Q) : bool :=
  match (x ?= y)%Q with
  | Lt => true
  | _ => false
  end.

(** *** Dictionaries *)

Definition dict (V : Type) : Type := list (Z * V).

Definition keys {V : Type} (d : dict V) : list Z := map fst d.

(** [d[k]] *)
Fixpoint getitem {V : Type} (d : dict V) (k : Z) : result V :=
  match d with
  | [] => Err (KeyError k)
  | (k', v) :: d' => if k =? k' then Ok v else getitem d' k
  end.

(** [d[k] = v]: an existing key keeps its place, a new one goes last. *)
Fixpoint dict_set {V : Type} (k : Z) (v : V) (d : dict V) : dict V :=
  match d with
  | [] => [(k, v)]
  | (k', v') :: d' =>
      if k =? k' then (k, v) :: d' else (k', v') :: dict_set k v d'
  end.

(** [dict(items)] *)
Definition dict_of_items {V : Type} (items : list (Z * V)) : dict V :=
  fold_left (fun d kv => dict_set (fst kv) (snd kv) d) items [].

(** *** [sorted(l, key=key)]

    Python's sort is stable and compares keys with [<] only.  It is
    modelled by the stable insertion sort: an element is placed after the
    elements of the sorted tail whose key is strictly smaller, hence before
    every later element of equal key. *)
Section Sorting.
Variable A : Type.
Variable key : A -> Q.

Fixpoint insert (x : A) (l : list A) : list A :=
  match l with
  | [] => [x]
  | y :: l' =>
      if Qltb (key y) (key x) then y :: insert x l' else x :: y :: l'
  end.

Fixpoint sorted (l : list A) : list A :=
  match l with
  | [] => []
  | x :: l' => insert x (sorted l')
  end.

(** The order [sorted] establishes: keys ascend. *)
Definition key_le (a b : A) : Prop := (key a <= key b)%Q.

(** The elements whose key equals [q]. *)
Definition has_key (q : Q) (a : A) : bool := Qeq_bool (key a) q.
End Sorting.

(** ** [get_analog] *)

(** Lines 48-56 (with [y := year]) and lines 60-67 (with [y := analog_year]):
    the ONI progression of a year. *)
Definition oni_progression (oni_values : dict (list Q)) (look_back y : Z)
  : result (list Q) :=
  if look_back =? 0 then getitem oni_values y
  else
    l <- mapM (getitem oni_values) (range (y - look_back) (y + 1)) ;;
    Ok (concat l).

(** Line 57 (with [y := year]) and line 68 (with [y := analog_year]): the PDO
    progression of a year. *)
Definition pdo_progression (pdo_values : dict (list Q)) (y : Z)
  : result (list Q) :=
  getitem pdo_values y.

(** Line 51: [start_year += look_back], in the branch [look_back != 0]. *)
Definition effective_start (look_back start_year : Z) : Z :=
  if look_back =? 0 then start_year else start_year + look_back.

(** The years of the two loops, [range(start_year, year)] after line 51. *)
Definition candidate_pool (year look_back start_year : Z) : list Z :=
  range (effective_start look_back start_year) year.

(** Lines 70-80 for one signal: the slice to the length of the current
    progression, then the comprehension over [zip]. *)
Definition distance_vector (analog_progression current_progression : list Q)
  (raise_to : Z) : result (list Q) :=
  let analog_progression :=
    firstn (length current_progression) analog_progression in
  mapM (fun p => py_pow (Qabs (fst p - snd p)) raise_to)
       (combine analog_progression current_progression).

(** Lines 60-80: the body of the first loop. *)
Definition analog_step (oni_values pdo_values : dict (list Q))
  (look_back raise_to : Z) (current_oni_progression current_pdo_progression : list Q)
  (st : dict (list Q) * dict (list Q)) (analog_year : Z)
  : result (dict (list Q) * dict (list Q)) :=
  analog_oni_progression <- oni_progression oni_values look_back analog_year ;;
  analog_pdo_progression <- pdo_progression pdo_values analog_year ;;
  oni_vector <-
    distance_vector analog_oni_progression current_oni_progression raise_to ;;
  pdo_vector <-
    distance_vector analog_pdo_progression current_pdo_progression raise_to ;;
  Ok (dict_set analog_year oni_vector (fst st),
      dict_set analog_year pdo_vector (snd st)).

(** The sort key of lines 82-83: [lambda pair: sum(pair[1])]. *)
Definition total_distance (pair : Z * list Q) : Q := sum (snd pair).

(** Lines 82-83: [dict(sorted(d.items(), key=lambda pair: sum(pair[1])))]. *)
Definition sort_analogs (d : dict (list Q)) : dict (list Q) :=
  dict_of_items (sorted total_distance d).

(** Lines 88-91: the body of the second loop. *)
Definition fuse_step (oni_analogs pdo_analogs : dict (list Q))
  (analogs : dict Q) (analog_year : Z) : result (dict Q) :=
  oni_place <- (i <- index analog_year (keys oni_analogs) ;; Ok (Z.of_nat i + 1)) ;;
  pdo_place <- (i <- index analog_year (keys pdo_analogs) ;; Ok (Z.of_nat i + 1)) ;;
  Ok (dict_set analog_year (Qmake (oni_place + pdo_place) 2) analogs).

(** Lines 82-91: both sorts and the second loop, over the years [pool]. *)
Definition rank_fuse (pool : list Z) (oni_analogs pdo_analogs : dict (list Q))
  : result (dict Q) :=
  let oni_analogs := sort_analogs oni_analogs in
  let pdo_analogs := sort_analogs pdo_analogs in
  foldM (fuse_step oni_analogs pdo_analogs) pool [].

(** Lines 93-95. *)
Definition select_analogs (analogs : dict Q) (years_to_return : Z) : list Z :=
  let analogs := dict_of_items (sorted (@snd Z Q) analogs) in
  slice_to years_to_return (keys analogs).

(** Lines 27-95.  The two series that lines 44 and 46 load are arguments;
    [oni_analogs] and [pdo_analogs] are the two components of the loop
    state [st]. *)
Definition get_analog (oni_values pdo_values : dict (list Q))
  (year look_back start_year raise_to years_to_return : Z) : result (list Z) :=
  current_oni_progression <- oni_progression oni_values look_back year ;;
  let start_year := effective_start look_back start_year in
  current_pdo_progression <- pdo_progression pdo_values year ;;
  st <- foldM (analog_step oni_values pdo_values look_back raise_to
                 current_oni_progression current_pdo_progression)
          (range start_year year) ([], []) ;;
  analogs <- rank_fuse (range start_year year) (fst st) (snd st) ;;
  Ok (select_analogs analogs years_to_return).


(** The number of candidate years. *)
Definition pool_size (year look_back start_year : Z) : Z :=
  Z.of_nat (length (candidate_pool year look_back start_year)).

(** ** Notions of the specification *)

(** The years [y - n, ..., y], ascending. *)
Fixpoint window_years (n : nat) (y : Z) : list Z :=
  match n with
  | O => [y]
  | S n' => window_years n' (y - 1) ++ [y]
  end.

(** The Progression Extractor as the specification words it: the
    observation sequences of the years [y - L, ..., y] of a series, one
    after the other; a missing year is a lookup failure. *)
Definition progression_spec (series : dict (list Q)) (L y : Z)
  : result (list Q) :=
  seqs <- mapM (getitem series) (window_years (Z.to_nat L) y) ;;
  Ok (concat seqs).

(** [l'] is [l] sorted by ascending key, ties in the order of [l]. *)
Definition stable_sort_of {A : Type} (key : A -> Q) (l l' : list A) : Prop :=
  Permutation l' l /\
  Sorted (key_le key) l' /\
  forall q, filter (has_key key q) l' = filter (has_key key q) l.

(** [r] is the 1-based position of the year [y] in the list [l]. *)
Definition rank_in (l : list Z) (y : Z) (r : Z) : Prop :=
  1 <= r /\ nth_error l (Z.to_nat (r - 1)) = Some y.

(** ** Sample data *)

Definition sample_oni : dict (list Q) :=
  [(1964, [1; 2]%Q); (1965, [3; 1]%Q); (1966, [1; 2]%Q); (1967, [0; 0]%Q)].

Definition sample_pdo : dict (list Q) :=
  [(1965, [1; 1]%Q); (1966, [0; 2]%Q); (1967, [0; 0]%Q)].

(** ** The fused scores of a call

    Lines 43-91 of [get_analog]: everything before the last sort, that is,
    the dictionary [analogs] of line 91. *)
Definition fused_scores (oni_values pdo_values : dict (list Q))
  (year look_back start_year raise_to : Z) : result (dict Q) :=
  current_oni_progression <- oni_progression oni_values look_back year ;;
  let start_year := effective_start look_back start_year in
  current_pdo_progression <- pdo_progression pdo_values year ;;
  st <- foldM (analog_step oni_values pdo_values look_back raise_to
                 current_oni_progression current_pdo_progression)
          (range start_year year) ([], []) ;;
  rank_fuse (range start_year year) (fst st) (snd st).

(** ** The snowfall layer: [analog_snowfalls] and [check_accuracy] *)

(** The exceptions of this layer: the ones [get_analog] raises, the
    [KeyError] of a dictionary with [str] keys, and the [StatisticsError] of
    the [statistics] module. *)
Inductive exception : Type :=
| Builtin (e : error)
| StrKeyError (key : string)
| StatisticsError.

Inductive outcome (A : Type) : Type :=
| Return (a : A)
| Raise (e : exception).

Arguments Return {A} a.
Arguments Raise {A} e.

Definition outcome_bind {A B : Type} (r : outcome A) (k : A -> outcome B)
  : outcome B :=
  match r with
  | Return a => k a
  | Raise e => Raise e
  end.

Notation "x <-- r ;; k" := (outcome_bind r (fun x => k))
  (at level 61, r at next level, right associativity).

(** An exception of [get_analog] passes through its caller. *)
Definition reraise {A : Type} (r : result A) : outcome A :=
  match r with
  | Ok a => Return a
  | Err e => Raise (Builtin e)
  end.

(** [for x in l: st = body(st, x)] in this layer. *)
Fixpoint outcome_foldM {A S : Type} (body : S -> A -> outcome S) (l : list A)
  (st : S) : outcome S :=
  match l with
  | [] => Return st
  | x :: l' => st' <-- body st x ;; outcome_foldM body l' st'
  end.

(** [str(n)] for an [int] [n]: the decimal digits, after a minus sign for a
    negative number. *)
Definition str (n : Z) : string :=
  DecimalString.NilEmpty.string_of_int (Z.to_int n).

(** [s[k:]] for a string [s] and [k >= 0]. *)
Fixpoint str_from (k : nat) (s : string) : string :=
  match k, s with
  | O, _ => s
  | S _, EmptyString => EmptyString
  | S k', String _ s' => str_from k' s'
  end.

(** Dictionaries with [str] keys (a loaded JSON object). *)
Definition str_dict (V : Type) : Type := list (string * V).

Fixpoint str_getitem {V : Type} (d : str_dict V) (k : string) : outcome V :=
  match d with
  | [] => Raise (StrKeyError k)
  | (k', v) :: d' => if String.eqb k k' then Return v else str_getitem d' k
  end.

Fixpoint str_dict_set {V : Type} (k : string) (v : V) (d : str_dict V)
  : str_dict V :=
  match d with
  | [] => [(k, v)]
  | (k', v') :: d' =>
      if String.eqb k k' then (k, v) :: d' else (k', v') :: str_dict_set k v d'
  end.

(** [d.values()] *)
Definition values {K V : Type} (d : list (K * V)) : list V := map snd d.

(** [x / y] on numbers. *)
Definition truediv (x y : Q) : outcome Q :=
  if Qeq_bool y 0 then Raise (Builtin ZeroDivisionError)
  else Return (x / y)%Q.

(** [statistics.median]: the middle of the sorted data, the mean of the two
    middle values for an even count (exactly: no rounding, no overflow). *)
Definition median (data : list Q) : outcome Q :=
  let data := sorted (fun x : Q => x) data in
  let n := length data in
  if (n =? 0)%nat then Raise StatisticsError
  else if (n mod 2 =? 1)%nat then Return (nth (n / 2) data 0%Q)
  else
    let i := (n / 2)%nat in
    Return ((nth (i - 1) data 0 + nth i data 0) / 2)%Q.

(** [statistics.mean], in exact arithmetic. *)
Definition mean (data : list Q) : outcome Q :=
  let n := length data in
  if (n =? 0)%nat then Raise StatisticsError
  else Return (sum data / inject_Z (Z.of_nat n))%Q.

(** Line 111: the key of a season, [f"{year}-{str(year + 1)[2:]}"]. *)
Definition season_key (year : Z) : string :=
  (str year ++ "-" ++ str_from 2 (str (year + 1)))%string.

(** The dictionary [analog_snowfalls] returns, one field per key. *)
Record analog_snowfall_data : Type := {
  data_airport : string;
  data_season_snowfalls : str_dict Q;
  data_median : Q
}.

(** Line 111: the body of the loop of [analog_snowfalls]. *)
Definition season_step (snowfall_data : str_dict (list Q))
  (season_snowfalls : str_dict Q) (year : Z) : outcome (str_dict Q) :=
  amounts <-- str_getitem snowfall_data (str year) ;;
  Return (str_dict_set (season_key year) (sum amounts) season_snowfalls).

(** Lines 98-115.  The content of the airport's file, which line 108 loads,
    is the argument [snowfall_data]. *)
Definition analog_snowfalls (snowfall_data : str_dict (list Q))
  (analog_years : list Z) (airport : string) : outcome analog_snowfall_data :=
  season_snowfalls <--
    outcome_foldM (season_step snowfall_data) analog_years [] ;;
  m <-- median (values season_snowfalls) ;;
  Return {| data_airport := airport;
            data_season_snowfalls := season_snowfalls;
            data_median := m |}.

(** Lines 151-155: the body of the loop of [check_accuracy]. *)
Definition accuracy_step (oni_values pdo_values : dict (list Q))
  (snowfall_data : str_dict (list Q)) (airport : string)
  (accuracy : dict Q) (year : Z) : outcome (dict Q) :=
  analog_years <-- reraise (get_analog oni_values pdo_values year 0 1964 1 5) ;;
  data <-- analog_snowfalls snowfall_data analog_years airport ;;
  amounts <-- str_getitem snowfall_data (str year) ;;
  ratio <-- truediv (data_median data) (sum amounts) ;;
  Return (dict_set year (ratio * 100)%Q accuracy).

(** Lines 139-167.  The files are arguments, as above; the report that
    lines 162-167 print is represented by the numbers it formats: the
    accuracy of each year and, first, their mean. *)
Definition check_accuracy (oni_values pdo_values : dict (list Q))
  (snowfall_data : str_dict (list Q)) (airport : string) (start_year : Z)
  : outcome (Q * dict Q) :=
  accuracy <--
    outcome_foldM (accuracy_step oni_values pdo_values snowfall_data airport)
      (range start_year 2022) [] ;;
  m <-- mean (values accuracy) ;;
  Return (m, accuracy).

(** The total snowfall of a season, [sum(snowfall_data[str(year)])] in
    lines 111 and 155. *)
Definition season_total (snowfall_data : str_dict (list Q)) (year : Z)
  : outcome Q :=
  amounts <-- str_getitem snowfall_data (str year) ;;
  Return (sum amounts).

(** Series over the years 1964 to 2021, for a whole run of
    [check_accuracy]: one observation per year, and one snowfall amount. *)
Definition long_oni : dict (list Q) :=
  map (fun y => (y, [inject_Z (y mod 7)])) (range 1964 2022).

Definition long_pdo : dict (list Q) :=
  map (fun y => (y, [inject_Z (y mod 5)])) (range 1964 2022).

Definition long_snowfall : str_dict (list Q) :=
  map (fun y => (str y, [inject_Z (y - 1960)])) (range 1964 2022).

(** [a] occurs before [b] in [l]. *)
Definition precedes {A : Type} (a b : A) (l : list A) : Prop :=
  exists l1 l2 l3, l = l1 ++ a :: l2 ++ b :: l3.

Definition sample_snowfall : str_dict (list Q) :=
  [("1965"%string, [10; 5]%Q); ("1966"%string, [20]%Q);
   ("1967"%string, [30; 6]%Q)].

(** * Properties *)

(** ** The exception monad *)

Lemma bind_Ok_inv (A B : Type) (r : result A) (k : A -> result B) (b : B) :
  bind r k = Ok b -> exists a, r = Ok a /\ k a = Ok b.
Proof.
  destruct r as [a | e]; simpl; intros H.
  - exists a; split; [reflexivity | exact H].
  - discriminate H.
Qed.

Lemma bind_Err_inv (A B : Type) (r : result A) (k : A -> result B) (e : error) :
  bind r k = Err e -> r = Err e \/ exists a, r = Ok a /\ k a = Err e.
Proof.
  destruct r as [a | e']; simpl; intros H.
  - right; exists a; split; [reflexivity | exact H].
  - left; injection H as ->; reflexivity.
Qed.

(** Decompose a hypothesis [bind r k = Ok b] into its two steps. *)
Ltac bind_inv H :=
  let a := fresh "a" in
  let Ha := fresh "Ha" in
  apply bind_Ok_inv in H; destruct H as (a & Ha & H).

Lemma mapM_Ok_Forall2 (A B : Type) (f : A -> result B) (l : list A) (ys : list B) :
  mapM f l = Ok ys <-> Forall2 (fun x y => f x = Ok y) l ys.
Proof.
  revert ys; induction l as [| x l IH]; intros ys; simpl.
  - split; intros H.
    + injection H as <-; constructor.
    + inversion H; reflexivity.
  - split; intros H.
    + bind_inv H. bind_inv H. injection H as <-.
      constructor; [assumption | apply IH; assumption].
    + inversion H as [| x' y l' ys' Hxy Hrest]; subst.
      rewrite Hxy; simpl. apply IH in Hrest. rewrite Hrest; reflexivity.
Qed.

Lemma mapM_length (A B : Type) (f : A -> result B) (l : list A) (ys : list B) :
  mapM f l = Ok ys -> length ys = length l.
Proof.
  intros H; apply mapM_Ok_Forall2 in H.
  induction H; simpl; congruence.
Qed.


(** The exception of a comprehension is the exception of one element. *)
Lemma mapM_Err_In (A B : Type) (f : A -> result B) (l : list A) (e : error) :
  mapM f l = Err e -> exists x, In x l /\ f x = Err e.
Proof.
  induction l as [| x l IH]; simpl; intros H.
  - discriminate H.
  - apply bind_Err_inv in H. destruct H as [H | (y & Hy & H)].
    + exists x; split; [left; reflexivity | exact H].
    + apply bind_Err_inv in H. destruct H as [H | (ys & _ & H)].
      * destruct (IH H) as (z & Hz & Hfz). exists z; split; [right |]; assumption.
      * discriminate H.
Qed.

(** ** [range] *)

Lemma range_In (a b y : Z) : In y (range a b) <-> a <= y < b.
Proof.
  unfold range. rewrite in_map_iff. split.
  - intros (i & <- & Hi). apply in_seq in Hi. lia.
  - intros H. exists (Z.to_nat (y - a)). split; [lia |].
    apply in_seq. lia.
Qed.

Lemma range_length (a b : Z) : Z.of_nat (length (range a b)) = Z.max 0 (b - a).
Proof.
  unfold range. rewrite length_map, length_seq. lia.
Qed.

Lemma range_empty (a b : Z) : b <= a -> range a b = [].
Proof.
  intros H. unfold range. replace (Z.to_nat (b - a)) with O by lia. reflexivity.
Qed.

Lemma range_NoDup (a b : Z) : NoDup (range a b).
Proof.
  unfold range. apply Finite.Injective_map_NoDup.
  - intros i j H. lia.
  - apply seq_NoDup.
Qed.

Lemma range_nth_error (a b : Z) (i : nat) :
  (Z.of_nat i < b - a) -> nth_error (range a b) i = Some (a + Z.of_nat i).
Proof.
  intros H. unfold range. rewrite nth_error_map.
  rewrite nth_error_seq. replace (Nat.ltb i (Z.to_nat (b - a))) with true.
  - reflexivity.
  - symmetry. apply Nat.ltb_lt. lia.
Qed.

(** ** Dictionaries *)

Lemma getitem_Ok_In (V : Type) (d : dict V) (k : Z) (v : V) :
  getitem d k = Ok v -> In k (keys d).
Proof.
  induction d as [| [k' v'] d IH]; simpl; intros H.
  - discriminate H.
  - destruct (Z.eqb_spec k k') as [-> | Hne]; [left; reflexivity | right; auto].
Qed.

Lemma getitem_In_Ok (V : Type) (d : dict V) (k : Z) :
  In k (keys d) -> exists v, getitem d k = Ok v.
Proof.
  induction d as [| [k' v'] d IH]; simpl; intros H.
  - contradiction.
  - destruct (Z.eqb_spec k k') as [-> | Hne]; [eexists; reflexivity |].
    destruct H as [H | H]; [congruence | apply IH; exact H].
Qed.

Lemma getitem_Err_KeyError (V : Type) (d : dict V) (k : Z) (e : error) :
  getitem d k = Err e -> e = KeyError k /\ ~ In k (keys d).
Proof.
  induction d as [| [k' v'] d IH]; simpl; intros H.
  - injection H as <-. split; [reflexivity | tauto].
  - destruct (Z.eqb_spec k k') as [-> | Hne]; [discriminate H |].
    destruct (IH H) as [He Hn]. split; [exact He |].
    intros [Hk | Hk]; [congruence | tauto].
Qed.

Lemma dict_set_new (V : Type) (k : Z) (v : V) (d : dict V) :
  ~ In k (keys d) -> dict_set k v d = d ++ [(k, v)].
Proof.
  induction d as [| [k' v'] d IH]; simpl; intros H.
  - reflexivity.
  - destruct (Z.eqb_spec k k') as [-> | Hne]; [tauto |].
    rewrite IH; [reflexivity | tauto].
Qed.

Lemma keys_dict_set_new (V : Type) (k : Z) (v : V) (d : dict V) :
  ~ In k (keys d) -> keys (dict_set k v d) = keys d ++ [k].
Proof.
  intros H. rewrite dict_set_new by exact H.
  unfold keys. rewrite map_app. reflexivity.
Qed.

Lemma dict_of_items_from (V : Type) (items acc : list (Z * V)) :
  NoDup (keys (acc ++ items)) ->
  fold_left (fun d kv => dict_set (fst kv) (snd kv) d) items acc = acc ++ items.
Proof.
  revert acc; induction items as [| [k v] items IH]; intros acc H; simpl.
  - rewrite app_nil_r; reflexivity.
  - assert (Hk : ~ In k (keys acc)).
    { unfold keys in H. rewrite map_app in H. simpl in H.
      apply NoDup_remove_2 in H. intros Hin; apply H.
      apply in_or_app; left; exact Hin. }
    rewrite dict_set_new by exact Hk.
    rewrite IH; rewrite <- app_assoc; simpl; [reflexivity | exact H].
Qed.

(** Building a dictionary from items of distinct keys keeps them all, in
    their order. *)
Lemma dict_of_items_NoDup (V : Type) (items : list (Z * V)) :
  NoDup (keys items) -> dict_of_items items = items.
Proof.
  intros H. unfold dict_of_items. rewrite dict_of_items_from; [reflexivity | exact H].
Qed.

(** ** [index] *)

Lemma index_In (x : Z) (l : list Z) : In x l -> exists i, index x l = Ok i.
Proof.
  induction l as [| y l IH]; simpl; intros H.
  - contradiction.
  - destruct (Z.eqb_spec x y) as [-> | Hne]; [eexists; reflexivity |].
    destruct H as [H | H]; [congruence |].
    destruct (IH H) as [i Hi]. rewrite Hi; simpl. eexists; reflexivity.
Qed.

Lemma index_Ok (x : Z) (l : list Z) (i : nat) :
  index x l = Ok i ->
  nth_error l i = Some x /\ forall j, (j < i)%nat -> nth_error l j <> Some x.
Proof.
  revert i; induction l as [| y l IH]; simpl; intros i H.
  - discriminate H.
  - destruct (Z.eqb_spec x y) as [-> | Hne].
    + injection H as <-. split; [reflexivity | intros j Hj; lia].
    + bind_inv H. injection H as <-. destruct (IH _ Ha) as [Hnth Hfirst].
      split; [exact Hnth |].
      intros [| j] Hj; simpl; [congruence | apply Hfirst; lia].
Qed.

Lemma index_Err (x : Z) (l : list Z) (e : error) :
  index x l = Err e -> ~ In x l.
Proof.
  intros H Hin. destruct (index_In x l Hin) as [i Hi]. congruence.
Qed.

(** ** [sorted] *)

Lemma Qltb_lt (x y : Q) : Qltb x y = true <-> (x < y)%Q.
Proof.
  unfold Qltb. rewrite Qlt_alt. destruct (x ?= y)%Q; split; congruence.
Qed.

Lemma Qltb_ge (x y : Q) : Qltb x y = false <-> (y <= x)%Q.
Proof.
  split; intros H.
  - apply Qnot_lt_le. intros Hlt. apply Qltb_lt in Hlt. congruence.
  - destruct (Qltb x y) eqn:E; [| reflexivity].
    apply Qltb_lt in E. exfalso. exact (Qlt_not_le _ _ E H).
Qed.

Section SortingFacts.
Variable A : Type.
Variable key : A -> Q.

Lemma insert_perm (x : A) (l : list A) : Permutation (insert key x l) (x :: l).
Proof.
  induction l as [| y l IH]; simpl.
  - apply Permutation_refl.
  - destruct (Qltb (key y) (key x)).
    + apply perm_trans with (y :: x :: l); [apply perm_skip; exact IH | apply perm_swap].
    + apply Permutation_refl.
Qed.

Lemma sorted_perm (l : list A) : Permutation (sorted key l) l.
Proof.
  induction l as [| x l IH]; simpl.
  - apply perm_nil.
  - apply perm_trans with (x :: sorted key l);
      [apply insert_perm | apply perm_skip; exact IH].
Qed.

Lemma sorted_length (l : list A) : length (sorted key l) = length l.
Proof. apply Permutation_length, sorted_perm. Qed.

Lemma insert_HdRel (a x : A) (l : list A) :
  (key_le key) a x -> HdRel (key_le key) a l -> HdRel (key_le key) a (insert key x l).
Proof.
  intros Hax Hl. destruct l as [| y l]; simpl.
  - constructor; exact Hax.
  - destruct (Qltb (key y) (key x)); constructor.
    + inversion Hl; assumption.
    + exact Hax.
Qed.

Lemma insert_Sorted (x : A) (l : list A) :
  Sorted (key_le key) l -> Sorted (key_le key) (insert key x l).
Proof.
  induction 1 as [| y l Hs IH Hhd]; simpl.
  - repeat constructor.
  - destruct (Qltb (key y) (key x)) eqn:E.
    + constructor; [exact IH |].
      apply insert_HdRel; [| exact Hhd].
      apply Qltb_lt in E. apply Qlt_le_weak; exact E.
    + constructor; [constructor; assumption |].
      constructor. apply Qltb_ge in E. exact E.
Qed.

Lemma sorted_Sorted (l : list A) : Sorted (key_le key) (sorted key l).
Proof.
  induction l as [| x l IH]; simpl; [constructor | apply insert_Sorted; exact IH].
Qed.

Lemma insert_filter (q : Q) (x : A) (l : list A) :
  filter (has_key key q) (insert key x l) = filter (has_key key q) (x :: l).
Proof.
  induction l as [| y l IH]; simpl; [reflexivity |].
  destruct (Qltb (key y) (key x)) eqn:E; [| reflexivity].
  simpl in *. rewrite IH.
  destruct (has_key key q x) eqn:Ex; [| reflexivity].
  destruct (has_key key q y) eqn:Ey; [| reflexivity].
  exfalso. unfold has_key in Ex, Ey.
  apply Qeq_bool_iff in Ex. apply Qeq_bool_iff in Ey.
  apply Qltb_lt in E. rewrite Ex, Ey in E. exact (Qlt_irrefl _ E).
Qed.

(** Stability: the elements of one key keep the order of the input. *)
Lemma sorted_stable (q : Q) (l : list A) :
  filter (has_key key q) (sorted key l) = filter (has_key key q) l.
Proof.
  induction l as [| x l IH]; simpl; [reflexivity |].
  rewrite insert_filter. simpl. rewrite IH. reflexivity.
Qed.
End SortingFacts.

(** ** Progressions and distance vectors *)


Lemma py_pow_Err x n e : py_pow x n = Err e -> e = ZeroDivisionError /\ n < 0.
Proof.
  unfold py_pow. destruct (Z.ltb_spec n 0) as [Hn | Hn]; simpl.
  - destruct (Qeq_bool x 0); intros H; [| discriminate H].
    injection H as <-. split; [reflexivity | exact Hn].
  - discriminate.
Qed.

Lemma distance_vector_Err analog current raise_to e :
  distance_vector analog current raise_to = Err e ->
  e = ZeroDivisionError /\ raise_to < 0.
Proof.
  unfold distance_vector. intros H. apply mapM_Err_In in H.
  destruct H as (p & _ & H). eapply py_pow_Err; eassumption.
Qed.

(** ** The first loop (lines 59-80) *)

Section FirstLoop.
Variables oni_values pdo_values : dict (list Q).
Variables look_back raise_to : Z.
Variables current_oni_progression current_pdo_progression : list Q.

Local Abbreviation step :=
  (analog_step oni_values pdo_values look_back raise_to
     current_oni_progression current_pdo_progression).

Lemma analog_step_Ok st y st' :
  step st y = Ok st' ->
  exists oni_p pdo_p oni_v pdo_v,
    oni_progression oni_values look_back y = Ok oni_p /\
    pdo_progression pdo_values y = Ok pdo_p /\
    distance_vector oni_p current_oni_progression raise_to = Ok oni_v /\
    distance_vector pdo_p current_pdo_progression raise_to = Ok pdo_v /\
    st' = (dict_set y oni_v (fst st), dict_set y pdo_v (snd st)).
Proof.
  unfold analog_step. intros H.
  bind_inv H. bind_inv H. bind_inv H. bind_inv H. injection H as <-.
  eauto 10.
Qed.

(** The loop binds one key per year, in the order of the years. *)
Lemma analog_loop_keys l st st' :
  foldM step l st = Ok st' ->
  NoDup (keys (fst st) ++ l) -> NoDup (keys (snd st) ++ l) ->
  keys (fst st') = keys (fst st) ++ l /\ keys (snd st') = keys (snd st) ++ l.
Proof.
  revert st; induction l as [| y l IH]; simpl; intros st H N1 N2.
  - injection H as <-. rewrite !app_nil_r. split; reflexivity.
  - bind_inv H.
    destruct (analog_step_Ok _ _ Ha) as (op & pp & ov & pv & _ & _ & _ & _ & ->).
    assert (K1 : ~ In y (keys (fst st))).
    { intros Hin. apply NoDup_remove_2 in N1. apply N1, in_or_app. left; exact Hin. }
    assert (K2 : ~ In y (keys (snd st))).
    { intros Hin. apply NoDup_remove_2 in N2. apply N2, in_or_app. left; exact Hin. }
    apply IH in H; simpl fst in *; simpl snd in *;
      rewrite ?keys_dict_set_new in * by assumption;
      rewrite <- ?app_assoc in *; simpl; assumption.
Qed.


End FirstLoop.

(** ** The two sorts and the second loop (lines 82-91) *)

Lemma sorted_keys_perm (V : Type) (key : Z * V -> Q) (d : dict V) :
  Permutation (keys (sorted key d)) (keys d).
Proof. unfold keys. apply Permutation_map, sorted_perm. Qed.

Lemma sorted_keys_NoDup (V : Type) (key : Z * V -> Q) (d : dict V) :
  NoDup (keys d) -> NoDup (keys (sorted key d)).
Proof.
  intros H. eapply Permutation_NoDup; [| exact H].
  apply Permutation_sym, sorted_keys_perm.
Qed.

(** Sorting the items of a dictionary and rebuilding a dictionary from them
    loses nothing: the keys are distinct. *)
Lemma dict_of_sorted_items (V : Type) (key : Z * V -> Q) (d : dict V) :
  NoDup (keys d) -> dict_of_items (sorted key d) = sorted key d.
Proof. intros H. apply dict_of_items_NoDup, sorted_keys_NoDup, H. Qed.

Lemma sort_analogs_sorted d :
  NoDup (keys d) -> sort_analogs d = sorted total_distance d.
Proof. apply dict_of_sorted_items. Qed.

Lemma getitem_dict_set_same (V : Type) (k : Z) (v : V) (d : dict V) :
  getitem (dict_set k v d) k = Ok v.
Proof.
  induction d as [| [k' v'] d IH]; simpl.
  - rewrite Z.eqb_refl; reflexivity.
  - destruct (Z.eqb_spec k k') as [-> | Hne]; simpl.
    + rewrite Z.eqb_refl; reflexivity.
    + destruct (Z.eqb_spec k k'); [congruence | exact IH].
Qed.

Lemma getitem_dict_set_other (V : Type) (k k0 : Z) (v : V) (d : dict V) :
  k0 <> k -> getitem (dict_set k v d) k0 = getitem d k0.
Proof.
  intros Hne. induction d as [| [k' v'] d IH]; simpl.
  - destruct (Z.eqb_spec k0 k); [congruence | reflexivity].
  - destruct (Z.eqb_spec k k') as [-> | Hne']; simpl.
    + destruct (Z.eqb_spec k0 k'); [congruence | reflexivity].
    + destruct (Z.eqb_spec k0 k'); [reflexivity | exact IH].
Qed.

Section SecondLoop.
Variables oni_analogs pdo_analogs : dict (list Q).

Local Abbreviation step := (fuse_step oni_analogs pdo_analogs).

Lemma fuse_step_Ok analogs y analogs' :
  step analogs y = Ok analogs' ->
  exists i j,
    index y (keys oni_analogs) = Ok i /\
    index y (keys pdo_analogs) = Ok j /\
    analogs' =
    dict_set y (Qmake ((Z.of_nat i + 1) + (Z.of_nat j + 1)) 2) analogs.
Proof.
  unfold fuse_step. intros H.
  bind_inv H. bind_inv Ha. injection Ha as <-.
  bind_inv H. bind_inv Ha. injection Ha as <-.
  injection H as <-. eauto.
Qed.

Lemma fuse_step_total analogs y :
  In y (keys oni_analogs) -> In y (keys pdo_analogs) ->
  exists analogs', step analogs y = Ok analogs'.
Proof.
  intros H1 H2. unfold fuse_step.
  destruct (index_In _ _ H1) as [i ->]. destruct (index_In _ _ H2) as [j ->].
  simpl. eexists; reflexivity.
Qed.

Lemma fuse_step_Err analogs y e :
  step analogs y = Err e ->
  ~ (In y (keys oni_analogs) /\ In y (keys pdo_analogs)).
Proof.
  intros H [H1 H2]. destruct (@fuse_step_total analogs y H1 H2) as [r Hr].
  congruence.
Qed.

Lemma fuse_loop_total l analogs :
  (forall y, In y l -> In y (keys oni_analogs) /\ In y (keys pdo_analogs)) ->
  exists analogs', foldM step l analogs = Ok analogs'.
Proof.
  revert analogs; induction l as [| x l IH]; simpl; intros analogs H.
  - eexists; reflexivity.
  - destruct (H x (or_introl eq_refl)) as [H1 H2].
    destruct (@fuse_step_total analogs x H1 H2) as [r ->]. simpl.
    apply IH. intros y Hy. apply H. right; exact Hy.
Qed.

Lemma fuse_loop_Err l analogs e :
  foldM step l analogs = Err e ->
  exists y, In y l /\ ~ (In y (keys oni_analogs) /\ In y (keys pdo_analogs)).
Proof.
  revert analogs; induction l as [| x l IH]; simpl; intros analogs H.
  - discriminate H.
  - apply bind_Err_inv in H. destruct H as [H | (r & _ & H)].
    + exists x. split; [left; reflexivity | eapply fuse_step_Err; eassumption].
    + destruct (IH _ H) as (y & Hy & Hn). exists y. split; [right |]; assumption.
Qed.

Lemma fuse_loop_keys l analogs analogs' :
  foldM step l analogs = Ok analogs' ->
  NoDup (keys analogs ++ l) ->
  keys analogs' = keys analogs ++ l.
Proof.
  revert analogs; induction l as [| y l IH]; simpl; intros analogs H N.
  - injection H as <-. rewrite app_nil_r. reflexivity.
  - bind_inv H. destruct (fuse_step_Ok _ _ Ha) as (i & j & _ & _ & ->).
    assert (K : ~ In y (keys analogs)).
    { intros Hin. apply NoDup_remove_2 in N. apply N, in_or_app. left; exact Hin. }
    apply IH in H; rewrite keys_dict_set_new in * by exact K;
      rewrite <- ?app_assoc in *; simpl; assumption.
Qed.

Lemma fuse_loop_other l analogs analogs' y :
  foldM step l analogs = Ok analogs' -> ~ In y l ->
  getitem analogs' y = getitem analogs y.
Proof.
  revert analogs; induction l as [| x l IH]; simpl; intros analogs H Hy.
  - injection H as <-. reflexivity.
  - bind_inv H. destruct (fuse_step_Ok _ _ Ha) as (i & j & _ & _ & ->).
    rewrite (IH _ H) by tauto.
    apply getitem_dict_set_other. intros ->. tauto.
Qed.

(** The score the loop leaves for a year is the half sum of its two
    places. *)
Lemma fuse_loop_getitem l analogs analogs' :
  foldM step l analogs = Ok analogs' -> NoDup l ->
  forall y, In y l ->
    exists i j,
      index y (keys oni_analogs) = Ok i /\
      index y (keys pdo_analogs) = Ok j /\
      getitem analogs' y =
      Ok (Qmake ((Z.of_nat i + 1) + (Z.of_nat j + 1)) 2).
Proof.
  revert analogs; induction l as [| x l IH]; simpl; intros analogs H N y Hy.
  - contradiction.
  - bind_inv H. inversion N as [| x' l' Hx Nl]; subst.
    destruct Hy as [<- | Hy].
    + destruct (fuse_step_Ok _ _ Ha) as (i & j & Hi & Hj & ->).
      exists i, j. repeat split; try assumption.
      rewrite (@fuse_loop_other _ _ _ _ H Hx). apply getitem_dict_set_same.
    + eapply IH; eassumption.
Qed.
End SecondLoop.

(** ** The selection (lines 93-95) *)

Lemma firstn_In (A : Type) (n : nat) (l : list A) (x : A) :
  In x (firstn n l) -> In x l.
Proof.
  intros H. rewrite <- (firstn_skipn n l). apply in_or_app. left; exact H.
Qed.

Lemma slice_to_In (A : Type) (k : Z) (l : list A) (x : A) :
  In x (slice_to k l) -> In x l.
Proof.
  unfold slice_to. destruct (k <? 0); apply firstn_In.
Qed.

Lemma slice_to_length (A : Type) (k : Z) (l : list A) :
  0 <= k -> Z.of_nat (length (slice_to k l)) = Z.min k (Z.of_nat (length l)).
Proof.
  intros H. unfold slice_to. destruct (Z.ltb_spec k 0); [lia |].
  rewrite length_firstn. lia.
Qed.

Lemma slice_to_nil (A : Type) (k : Z) : slice_to k (@nil A) = [].
Proof. unfold slice_to. destruct (k <? 0); apply firstn_nil. Qed.

Lemma select_analogs_sorted analogs years_to_return :
  NoDup (keys analogs) ->
  select_analogs analogs years_to_return =
  slice_to years_to_return (keys (sorted (@snd Z Q) analogs)).
Proof.
  intros H. unfold select_analogs. rewrite dict_of_sorted_items by exact H.
  reflexivity.
Qed.

(** ** The shape of a call that returns *)

Lemma candidate_pool_In year look_back start_year y :
  In y (candidate_pool year look_back start_year) <->
  effective_start look_back start_year <= y < year.
Proof. apply range_In. Qed.

Lemma candidate_pool_NoDup year look_back start_year :
  NoDup (candidate_pool year look_back start_year).
Proof. apply range_NoDup. Qed.

Lemma sort_analogs_keys_In d y :
  NoDup (keys d) -> (In y (keys (sort_analogs d)) <-> In y (keys d)).
Proof.
  intros H. rewrite sort_analogs_sorted by exact H.
  split; apply Permutation_in;
    [| apply Permutation_sym]; apply sorted_keys_perm.
Qed.

Lemma get_analog_Ok_inv oni_values pdo_values year look_back start_year
  raise_to years_to_return res :
  get_analog oni_values pdo_values year look_back start_year raise_to
    years_to_return = Ok res ->
  let pool := candidate_pool year look_back start_year in
  exists current_oni current_pdo st analogs,
    oni_progression oni_values look_back year = Ok current_oni /\
    pdo_progression pdo_values year = Ok current_pdo /\
    foldM (analog_step oni_values pdo_values look_back raise_to
             current_oni current_pdo) pool ([], []) = Ok st /\
    keys (fst st) = pool /\ keys (snd st) = pool /\
    rank_fuse pool (fst st) (snd st) = Ok analogs /\
    keys analogs = pool /\
    res = slice_to years_to_return (keys (sorted (@snd Z Q) analogs)).
Proof.
  intros H pool. unfold get_analog in H.
  bind_inv H. bind_inv H. bind_inv H. bind_inv H. injection H as <-.
  rename a into current_oni, a0 into current_pdo, a1 into st, a2 into analogs.
  fold (candidate_pool year look_back start_year) in *. fold pool in Ha1, Ha2.
  assert (N : NoDup pool) by apply candidate_pool_NoDup.
  destruct (@analog_loop_keys _ _ _ _ _ _ _ _ _ Ha1) as [K1 K2];
    simpl; try exact N.
  simpl in K1, K2.
  assert (K3 : keys analogs = pool).
  { unfold rank_fuse in Ha2. apply fuse_loop_keys in Ha2; simpl; assumption. }
  exists current_oni, current_pdo, st, analogs.
  repeat split; try assumption.
  apply select_analogs_sorted. rewrite K3; exact N.
Qed.

(** The second loop finds every candidate year in both sorted
    dictionaries: [index] does not raise. *)
Lemma rank_fuse_total pool oni_analogs pdo_analogs :
  keys oni_analogs = pool -> keys pdo_analogs = pool -> NoDup pool ->
  exists analogs, rank_fuse pool oni_analogs pdo_analogs = Ok analogs.
Proof.
  intros K1 K2 N. unfold rank_fuse. apply fuse_loop_total.
  intros y Hy. split; apply sort_analogs_keys_In; congruence.
Qed.

(** ** The specification's window and the code's [range] *)

Lemma range_snoc (a b : Z) : a <= b -> range a (b + 1) = range a b ++ [b].
Proof.
  intros H. unfold range.
  replace (Z.to_nat (b + 1 - a)) with (S (Z.to_nat (b - a))) by lia.
  rewrite seq_S, map_app. simpl. do 2 f_equal. lia.
Qed.

Lemma window_years_range (n : nat) (y : Z) :
  window_years n y = range (y - Z.of_nat n) (y + 1).
Proof.
  revert y; induction n as [| n IH]; intros y.
  - simpl window_years. rewrite range_snoc by lia.
    rewrite range_empty by lia. reflexivity.
  - simpl window_years. rewrite IH.
    rewrite (range_snoc (a := y - Z.of_nat (S n)) (b := y)) by lia.
    do 2 f_equal; lia.
Qed.

Lemma progression_spec_single (series : dict (list Q)) (y : Z) :
  progression_spec series 0 y = getitem series y.
Proof.
  unfold progression_spec. simpl.
  destruct (getitem series y) as [s | e]; simpl; [| reflexivity].
  rewrite app_nil_r. reflexivity.
Qed.

(** * The claims *)

(** ** C1: progressions under a look-back *)

(** C1, as stated, fails for the PDO signal.  With a look-back of one year
    the PDO progression [get_analog] builds for 1966 (line 57 for the target,
    line 68 for a candidate) is the sequence of 1966 alone, not the
    sequences of 1965 and 1966 one after the other. *)
Lemma pdo_progression_ignores_look_back :
  0 < 1 /\
  pdo_progression sample_pdo 1966 = Ok [0; 2]%Q /\
  progression_spec sample_pdo 1 1966 = Ok [1; 1; 0; 2]%Q /\
  pdo_progression sample_pdo 1966 <> progression_spec sample_pdo 1 1966.
Proof.
  split; [lia |]. split; [reflexivity |]. split; [reflexivity |].
  vm_compute. discriminate.
Qed.

(** C1 (amended): for every year and look-back L > 0, the ONI progression
    [get_analog] builds for the year (target or candidate) is the
    concatenation, in ascending year order, of the ONI sequences of the
    years [year - L, year], failing as the first missing year does; the PDO
    progression is the PDO sequence of the year alone, whatever L. *)
Theorem look_back_progressions (oni_values pdo_values : dict (list Q))
  (look_back y : Z) :
  0 < look_back ->
  oni_progression oni_values look_back y
  = progression_spec oni_values look_back y /\
  pdo_progression pdo_values y = progression_spec pdo_values 0 y.
Proof.
  intros HL. split.
  - unfold oni_progression, progression_spec.
    destruct (Z.eqb_spec look_back 0) as [E | _]; [lia |].
    rewrite window_years_range. rewrite Z2Nat.id by lia. reflexivity.
  - unfold pdo_progression. symmetry. apply progression_spec_single.
Qed.

Lemma look_back_progressions_witness :
  oni_progression sample_oni 1 1966 = progression_spec sample_oni 1 1966 /\
  pdo_progression sample_pdo 1966 = progression_spec sample_pdo 0 1966.
Proof.
  apply (@look_back_progressions sample_oni sample_pdo 1 1966). lia.
Defined.

(** ** C2: an empty candidate pool *)

(** C2, as stated, fails: with the target year equal to the start of the
    pool, [range(start_year, year)] is empty, neither loop runs and the call
    returns the empty list. *)
Lemma empty_pool_returns_normally :
  1965 <= effective_start 0 1965 /\
  get_analog sample_oni sample_pdo 1965 0 1965 1 5 = Ok [].
Proof. split; [vm_compute; discriminate | reflexivity]. Qed.

(** C2 (amended): when the target year is at or below the effective start of
    the pool, [get_analog] raises no usage error: it looks up the target
    year's two progressions and, when both are found, returns the empty
    list. *)
Theorem empty_pool_result (oni_values pdo_values : dict (list Q))
  (year look_back start_year raise_to years_to_return : Z) :
  year <= effective_start look_back start_year ->
  get_analog oni_values pdo_values year look_back start_year raise_to
    years_to_return
  = (_ <- oni_progression oni_values look_back year ;;
     _ <- pdo_progression pdo_values year ;;
     Ok []).
Proof.
  intros H. unfold get_analog. rewrite (range_empty H). simpl.
  destruct (oni_progression oni_values look_back year); simpl; [| reflexivity].
  destruct (pdo_progression pdo_values year); simpl; [| reflexivity].
  unfold select_analogs. simpl. rewrite slice_to_nil. reflexivity.
Qed.

Lemma empty_pool_result_witness :
  get_analog sample_oni sample_pdo 1965 0 1966 1 5
  = (_ <- oni_progression sample_oni 0 1965 ;;
     _ <- pdo_progression sample_pdo 1965 ;;
     Ok []).
Proof.
  apply (@empty_pool_result sample_oni sample_pdo 1965 0 1966 1 5).
  unfold effective_start. simpl. lia.
Defined.

(** ** C3: ranks and fused scores *)

Lemma sort_analogs_stable_sort (d : dict (list Q)) :
  NoDup (keys d) -> stable_sort_of total_distance d (sort_analogs d).
Proof.
  intros N. rewrite sort_analogs_sorted by exact N.
  split; [apply sorted_perm |]. split; [apply sorted_Sorted |].
  intros q. apply sorted_stable.
Qed.

Lemma index_rank_in (l : list Z) (y : Z) (i : nat) :
  index y l = Ok i -> rank_in l y (Z.of_nat i + 1).
Proof.
  intros H. apply index_Ok in H. destruct H as [H _].
  split; [lia |].
  replace (Z.to_nat (Z.of_nat i + 1 - 1)) with i by lia. exact H.
Qed.

(** C3: for dictionaries of distance vectors over the candidate years,
    lines 82-83 sort the years of each signal (separately) by ascending
    total distance, years of equal total distance staying in the order of
    the input; lines 88-91 give every candidate year the score
    (rank_ONI + rank_PDO) / 2, where the rank of a year is its 1-based
    position in the sorted order of the signal. *)
Theorem rank_fusion (pool : list Z) (oni_analogs pdo_analogs : dict (list Q)) :
  keys oni_analogs = pool -> keys pdo_analogs = pool -> NoDup pool ->
  stable_sort_of total_distance oni_analogs (sort_analogs oni_analogs) /\
  stable_sort_of total_distance pdo_analogs (sort_analogs pdo_analogs) /\
  exists analogs,
    rank_fuse pool oni_analogs pdo_analogs = Ok analogs /\
    keys analogs = pool /\
    forall y, In y pool ->
      exists rank_oni rank_pdo,
        rank_in (keys (sort_analogs oni_analogs)) y rank_oni /\
        rank_in (keys (sort_analogs pdo_analogs)) y rank_pdo /\
        getitem analogs y = Ok (Qmake (rank_oni + rank_pdo) 2).
Proof.
  intros K1 K2 N.
  split; [apply sort_analogs_stable_sort; rewrite K1; exact N |].
  split; [apply sort_analogs_stable_sort; rewrite K2; exact N |].
  destruct (@rank_fuse_total _ _ _ K1 K2 N) as [analogs Ha].
  exists analogs. split; [exact Ha |].
  unfold rank_fuse in Ha. split.
  - apply fuse_loop_keys in Ha; simpl; assumption.
  - intros y Hy.
    destruct (@fuse_loop_getitem _ _ _ _ _ Ha N y Hy) as (i & j & Hi & Hj & Hg).
    exists (Z.of_nat i + 1), (Z.of_nat j + 1).
    split; [apply index_rank_in; exact Hi |].
    split; [apply index_rank_in; exact Hj | exact Hg].
Qed.

Lemma rank_fusion_witness :
  stable_sort_of total_distance
    [(1964, [1]%Q); (1965, [2]%Q); (1966, [1]%Q)]
    (sort_analogs [(1964, [1]%Q); (1965, [2]%Q); (1966, [1]%Q)]) /\
  stable_sort_of total_distance
    [(1964, [3]%Q); (1965, [0]%Q); (1966, [0]%Q)]
    (sort_analogs [(1964, [3]%Q); (1965, [0]%Q); (1966, [0]%Q)]) /\
  exists analogs,
    rank_fuse [1964; 1965; 1966]
      [(1964, [1]%Q); (1965, [2]%Q); (1966, [1]%Q)]
      [(1964, [3]%Q); (1965, [0]%Q); (1966, [0]%Q)] = Ok analogs /\
    keys analogs = [1964; 1965; 1966] /\
    forall y, In y [1964; 1965; 1966] ->
      exists rank_oni rank_pdo,
        rank_in (keys (sort_analogs
                   [(1964, [1]%Q); (1965, [2]%Q); (1966, [1]%Q)])) y rank_oni /\
        rank_in (keys (sort_analogs
                   [(1964, [3]%Q); (1965, [0]%Q); (1966, [0]%Q)])) y rank_pdo /\
        getitem analogs y = Ok (Qmake (rank_oni + rank_pdo) 2).
Proof.
  apply (@rank_fusion [1964; 1965; 1966]
           [(1964, [1]%Q); (1965, [2]%Q); (1966, [1]%Q)]
           [(1964, [3]%Q); (1965, [0]%Q); (1966, [0]%Q)]).
  - reflexivity.
  - reflexivity.
  - repeat constructor; simpl; intuition lia.
Defined.

(** The tie scenario of the specification: the ONI order is Y1, Y2, Y3 and
    the PDO order is Y3, Y2, Y1; every fused score is 4/2 and the selection
    keeps the order of the candidate years. *)
Example rank_fusion_tie_scenario :
  rank_fuse [1; 2; 3]
    [(1, [1]%Q); (2, [2]%Q); (3, [3]%Q)]
    [(1, [3]%Q); (2, [2]%Q); (3, [1]%Q)]
  = Ok [(1, Qmake 4 2); (2, Qmake 4 2); (3, Qmake 4 2)] /\
  select_analogs [(1, Qmake 4 2); (2, Qmake 4 2); (3, Qmake 4 2)] 3
  = [1; 2; 3].
Proof. split; reflexivity. Qed.

(** A whole call on the sample data.  The ONI distances of 1965 and 1966 to
    1967 are 4 and 3, the PDO distances 2 and 2: the places are (2, 1) and
    (1, 2), both scores 3/2, and the years come back in pool order. *)
Example get_analog_sample :
  get_analog sample_oni sample_pdo 1967 0 1965 1 5 = Ok [1965; 1966].
Proof. reflexivity. Qed.

(** ** C4 and C10: the distance scorer *)

Lemma nth_error_combine (A B : Type) (l1 : list A) (l2 : list B) (i : nat)
  (a : A) (b : B) :
  nth_error l1 i = Some a -> nth_error l2 i = Some b ->
  nth_error (combine l1 l2) i = Some (a, b).
Proof.
  revert l2 i; induction l1 as [| x l1 IH]; intros [| y l2] [| i]; simpl;
    try discriminate.
  - intros [= ->] [= ->]. reflexivity.
  - apply IH.
Qed.

Lemma sum_from (l : list Q) (a : Q) :
  (fold_left Qplus l a == a + fold_right Qplus 0 l)%Q.
Proof.
  revert a; induction l as [| x l IH]; intros a; simpl.
  - ring.
  - rewrite IH. ring.
Qed.

(** In exact arithmetic the order [sum] adds in does not matter. *)
Lemma sum_fold_right (l : list Q) : (sum l == fold_right Qplus 0 l)%Q.
Proof. unfold sum. rewrite sum_from. ring. Qed.

Lemma py_pow_Ok x n y : py_pow x n = Ok y -> y = Qpower x n.
Proof.
  unfold py_pow. destruct ((n <? 0) && Qeq_bool x 0); [discriminate |].
  intros [= <-]. reflexivity.
Qed.

Lemma mapM_Ok_map (A B : Type) (f : A -> result B) (g : A -> B)
  (l : list A) (ys : list B) :
  (forall x y, f x = Ok y -> y = g x) -> mapM f l = Ok ys -> ys = map g l.
Proof.
  intros Hfg H. apply mapM_Ok_Forall2 in H.
  induction H as [| x y l ys Hxy _ IH]; simpl; [reflexivity |].
  apply Hfg in Hxy. congruence.
Qed.

(** The vector of a scoring that returns. *)
Lemma distance_vector_Ok analog current raise_to v :
  distance_vector analog current raise_to = Ok v ->
  v = map (fun p => Qpower (Qabs (fst p - snd p)) raise_to)
          (combine (firstn (length current) analog) current).
Proof.
  unfold distance_vector. apply mapM_Ok_map.
  intros p y. apply py_pow_Ok.
Qed.



(** C10, as stated, fails: a vector is not produced for every pair of
    progressions.  Under the exponent -1 the candidate [1, 2] against the
    target [1, 1, 1] raises [ZeroDivisionError] at the first pair: zero
    cannot be raised to a negative power. *)
Lemma distance_vector_negative_exponent :
  distance_vector [1; 2]%Q [1; 1; 1]%Q (-1) = Err ZeroDivisionError.
Proof. reflexivity. Qed.

Lemma combine_truncated (A B : Type) (l : list A) (l' : list B) :
  combine (firstn (length l') l) l' = combine l l'.
Proof.
  revert l'; induction l as [| x l IH]; intros [| y l']; simpl;
    try reflexivity.
  rewrite IH. reflexivity.
Qed.

Lemma combine_min (A B : Type) (l : list A) (l' : list B) :
  combine (firstn (Nat.min (length l) (length l')) l)
          (firstn (Nat.min (length l) (length l')) l')
  = combine l l'.
Proof.
  rewrite <- combine_firstn. apply firstn_all2.
  rewrite length_combine. apply Nat.le_refl.
Qed.

(** C10 (amended): every vector the scorer returns has length
    min(length of candidate, length of target): over a candidate shorter
    than the target the pairing stops with the candidate, and nothing is
    padded.  The observations beyond that length, of either progression,
    play no part: the outcome - vector or exception - is that of the two
    progressions cut to the common length, so a difference in length never
    raises. *)
Theorem distance_vector_length (analog current : list Q) (raise_to : Z) :
  (forall v, distance_vector analog current raise_to = Ok v ->
     length v = Nat.min (length analog) (length current) /\
     ((length analog < length current)%nat -> length v = length analog)) /\
  distance_vector analog current raise_to
  = distance_vector
      (firstn (Nat.min (length analog) (length current)) analog)
      (firstn (Nat.min (length analog) (length current)) current)
      raise_to.
Proof.
  split.
  - intros v Hv. apply distance_vector_Ok in Hv. subst v.
    rewrite length_map, length_combine, length_firstn. split; lia.
  - unfold distance_vector. rewrite !combine_truncated, combine_min.
    reflexivity.
Qed.

Lemma distance_vector_length_witness :
  distance_vector [1; 2]%Q [1; 1; 1]%Q 1 = Ok [0; 1]%Q /\
  length [0; 1]%Q = 2%nat.
Proof.
  split; [reflexivity |].
  destruct (@distance_vector_length [1; 2]%Q [1; 1; 1]%Q 1) as [Hlength _].
  destruct (Hlength [0; 1]%Q eq_refl) as [_ Hshort]. apply Hshort.
  simpl. lia.
Defined.

(** ** C5, C6 and C7: the candidate pool and the returned list *)

(** What a call returns is a prefix (line 95) of an ordering of the
    candidate pool. *)
Lemma get_analog_Ok_perm oni_values pdo_values year look_back start_year
  raise_to years_to_return res :
  get_analog oni_values pdo_values year look_back start_year raise_to
    years_to_return = Ok res ->
  exists ordered,
    Permutation ordered (candidate_pool year look_back start_year) /\
    res = slice_to years_to_return ordered.
Proof.
  intros H. apply get_analog_Ok_inv in H.
  destruct H as (co & cp & st & analogs & _ & _ & _ & _ & _ & _ & K & ->).
  exists (keys (sorted (@snd Z Q) analogs)). split; [| reflexivity].
  rewrite <- K. apply sorted_keys_perm.
Qed.

Lemma pool_size_max year look_back start_year :
  pool_size year look_back start_year
  = Z.max 0 (year - effective_start look_back start_year).
Proof. unfold pool_size, candidate_pool. apply range_length. Qed.

Lemma slice_to_all (A : Type) (k : Z) (l : list A) :
  Z.of_nat (length l) <= k -> slice_to k l = l.
Proof.
  intros H. unfold slice_to. destruct (Z.ltb_spec k 0); [lia |].
  apply firstn_all2. lia.
Qed.

(** C5: for every call with look-back L > 0 the floor of the candidate pool
    is start_year + L and the pool is exactly the years
    [start_year + L, year - 1]: a call that returns returns years of that
    interval only, and all of them when years_to_return is at least their
    number. *)
Theorem look_back_pool (year look_back start_year : Z) :
  0 < look_back ->
  effective_start look_back start_year = start_year + look_back /\
  (forall y, In y (candidate_pool year look_back start_year) <->
             start_year + look_back <= y <= year - 1) /\
  forall oni_values pdo_values raise_to years_to_return res,
    get_analog oni_values pdo_values year look_back start_year raise_to
      years_to_return = Ok res ->
    (forall y, In y res -> start_year + look_back <= y <= year - 1) /\
    (pool_size year look_back start_year <= years_to_return ->
     forall y, start_year + look_back <= y <= year - 1 -> In y res).
Proof.
  intros HL.
  assert (E : effective_start look_back start_year = start_year + look_back).
  { unfold effective_start. destruct (Z.eqb_spec look_back 0); [lia | reflexivity]. }
  assert (P : forall y, In y (candidate_pool year look_back start_year) <->
                        start_year + look_back <= y <= year - 1).
  { intros y. rewrite candidate_pool_In, E. lia. }
  split; [exact E |]. split; [exact P |].
  intros oni_values pdo_values raise_to years_to_return res H.
  apply get_analog_Ok_perm in H. destruct H as (ordered & Hperm & ->). split.
  - intros y Hy. apply P. eapply Permutation_in; [exact Hperm |].
    eapply slice_to_In; exact Hy.
  - intros Hk y Hy. rewrite slice_to_all.
    + eapply Permutation_in; [apply Permutation_sym; exact Hperm |].
      apply P; exact Hy.
    + rewrite (Permutation_length Hperm). exact Hk.
Qed.

Lemma look_back_pool_witness :
  effective_start 2 1964 = 1966 /\
  (In 1966 (candidate_pool 1968 2 1964) /\
   ~ In 1964 (candidate_pool 1968 2 1964)) /\
  exists res,
    get_analog sample_oni sample_pdo 1967 1 1964 1 5 = Ok res /\
    forall y, In y res <-> 1964 + 1 <= y <= 1967 - 1.
Proof.
  destruct (@look_back_pool 1968 2 1964 ltac:(lia)) as (Hfloor & Hpool & _).
  split; [exact Hfloor |]. split.
  - split; [apply Hpool; lia | intros Hin; apply Hpool in Hin; lia].
  - destruct (@look_back_pool 1967 1 1964 ltac:(lia)) as (_ & _ & Hres).
    exists [1965; 1966]. split; [reflexivity |].
    destruct (Hres sample_oni sample_pdo 1 5 [1965; 1966] eq_refl) as [Hin Hall].
    intros y. split; [apply Hin | apply Hall; vm_compute; discriminate].
Defined.

(** C6: for every call with years_to_return >= 0 that returns, the length
    of the returned list is min(years_to_return, pool_size), where pool_size
    is the number of years of [effective_start, year - 1]: fewer years than
    asked for come back only when the pool has fewer, and the list is never
    padded. *)
Theorem result_length (oni_values pdo_values : dict (list Q))
  (year look_back start_year raise_to years_to_return : Z) :
  0 <= years_to_return ->
  (forall res,
      get_analog oni_values pdo_values year look_back start_year raise_to
        years_to_return = Ok res ->
      Z.of_nat (length res)
      = Z.min years_to_return (pool_size year look_back start_year)) /\
  pool_size year look_back start_year
  = Z.max 0 (year - effective_start look_back start_year).
Proof.
  intros Hk. split.
  - intros res H. apply get_analog_Ok_perm in H.
    destruct H as (ordered & Hperm & ->).
    rewrite slice_to_length by exact Hk.
    unfold pool_size. rewrite (Permutation_length Hperm). reflexivity.
  - apply pool_size_max.
Qed.

Lemma result_length_witness :
  get_analog sample_oni sample_pdo 1967 0 1965 1 1 = Ok [1965] /\
  Z.of_nat (length [1965]) = Z.min 1 (pool_size 1967 0 1965) /\
  get_analog sample_oni sample_pdo 1967 0 1965 1 5 = Ok [1965; 1966] /\
  Z.of_nat (length [1965; 1966]) = Z.min 5 (pool_size 1967 0 1965).
Proof.
  split; [reflexivity |]. split.
  - destruct (@result_length sample_oni sample_pdo 1967 0 1965 1 1
                ltac:(lia)) as [Hlength _].
    apply Hlength. reflexivity.
  - split; [reflexivity |].
    destruct (@result_length sample_oni sample_pdo 1967 0 1965 1 5
                ltac:(lia)) as [Hlength _].
    apply Hlength. reflexivity.
Defined.

(** C7: a call with look_back = 0 that returns never returns the target
    year nor a later one: every returned year lies in
    [start_year, year - 1], the start being the effective one. *)
Theorem no_look_back_result_range (oni_values pdo_values : dict (list Q))
  (year start_year raise_to years_to_return : Z) (res : list Z) :
  get_analog oni_values pdo_values year 0 start_year raise_to years_to_return
  = Ok res ->
  effective_start 0 start_year = start_year /\
  forall y, In y res -> start_year <= y <= year - 1 /\ y <> year /\ y < year.
Proof.
  intros H. split; [reflexivity |].
  apply get_analog_Ok_perm in H. destruct H as (ordered & Hperm & ->).
  intros y Hy. apply slice_to_In in Hy.
  apply (Permutation_in _ Hperm) in Hy. apply candidate_pool_In in Hy.
  unfold effective_start in Hy. simpl in Hy. lia.
Qed.

Lemma no_look_back_result_range_witness :
  get_analog sample_oni sample_pdo 1967 0 1965 1 5 = Ok [1965; 1966] /\
  (1965 <= 1966 <= 1967 - 1 /\ 1966 <> 1967 /\ 1966 < 1967).
Proof.
  split; [reflexivity |].
  destruct (@no_look_back_result_range sample_oni sample_pdo 1967 1965 1 5
              [1965; 1966] eq_refl) as [_ Hrange].
  apply Hrange. simpl. tauto.
Defined.

(** ** C8: missing years *)




(** The exception of such a call need not be the lookup error: the loop
    computes the distances of a candidate before it reads the next one.
    Here the candidate 1966 is absent, and the call raises the
    [ZeroDivisionError] of the candidate 1965 (exponent -1, equal
    observations) before 1966 is looked up. *)
Example missing_year_after_zero_division :
  In 1966 (candidate_pool 1967 0 1965) /\
  ~ In 1966 (keys [(1965, [0]%Q); (1967, [0]%Q)]) /\
  get_analog [(1965, [0]%Q); (1967, [0]%Q)] [(1965, [0]%Q); (1967, [0]%Q)]
    1967 0 1965 (-1) 5 = Err ZeroDivisionError.
Proof.
  split; [vm_compute; tauto |]. split; [| reflexivity].
  vm_compute. intros H. destruct H as [H | [H | H]]; try discriminate H; exact H.
Qed.

(** * Further properties of [get_analog] *)

(** ** The call as scores, then selection *)

Lemma get_analog_fused_scores oni_values pdo_values year look_back start_year
  raise_to years_to_return :
  get_analog oni_values pdo_values year look_back start_year raise_to
    years_to_return
  = (analogs <- fused_scores oni_values pdo_values year look_back start_year
                  raise_to ;;
     Ok (select_analogs analogs years_to_return)).
Proof.
  unfold get_analog, fused_scores.
  destruct (oni_progression oni_values look_back year); simpl; [| reflexivity].
  destruct (pdo_progression pdo_values year); simpl; [| reflexivity].
  destruct (foldM _ _ _); simpl; reflexivity.
Qed.

Lemma fused_scores_keys oni_values pdo_values year look_back start_year
  raise_to analogs :
  fused_scores oni_values pdo_values year look_back start_year raise_to
  = Ok analogs ->
  keys analogs = candidate_pool year look_back start_year.
Proof.
  intros H.
  assert (G : get_analog oni_values pdo_values year look_back start_year
                raise_to 0 = Ok (select_analogs analogs 0)).
  { rewrite get_analog_fused_scores, H. reflexivity. }
  apply get_analog_Ok_inv in G.
  destruct G as (co & cp & st & analogs' & Ho & Hp & Hloop & _ & _ & Hr & K & _).
  unfold fused_scores in H. rewrite Ho in H; simpl in H.
  rewrite Hp in H; simpl in H.
  fold (candidate_pool year look_back start_year) in H.
  rewrite Hloop in H; simpl in H. congruence.
Qed.

(** The list a call returns: the first years of the scores sorted. *)
Lemma get_analog_Ok_scores oni_values pdo_values year look_back start_year
  raise_to years_to_return res :
  get_analog oni_values pdo_values year look_back start_year raise_to
    years_to_return = Ok res ->
  exists analogs,
    fused_scores oni_values pdo_values year look_back start_year raise_to
    = Ok analogs /\
    keys analogs = candidate_pool year look_back start_year /\
    res = slice_to years_to_return (keys (sorted (@snd Z Q) analogs)).
Proof.
  rewrite get_analog_fused_scores. intros H. bind_inv H. injection H as <-.
  exists a. split; [exact Ha |].
  pose proof (fused_scores_keys _ _ _ _ _ _ Ha) as K.
  split; [exact K |].
  apply select_analogs_sorted. rewrite K. apply candidate_pool_NoDup.
Qed.

Lemma firstn_NoDup (A : Type) (n : nat) (l : list A) :
  NoDup l -> NoDup (firstn n l).
Proof.
  intros H. rewrite <- (firstn_skipn n l) in H.
  apply NoDup_app_remove_r in H. exact H.
Qed.

Lemma slice_to_firstn (A : Type) (k : Z) (l : list A) :
  exists n, slice_to k l = firstn n l.
Proof. unfold slice_to. destruct (k <? 0); eexists; reflexivity. Qed.

(** X1: No year is returned twice. *)
Theorem get_analog_no_duplicates (oni_values pdo_values : dict (list Q))
  (year look_back start_year raise_to years_to_return : Z) (res : list Z) :
  get_analog oni_values pdo_values year look_back start_year raise_to
    years_to_return = Ok res ->
  NoDup res.
Proof.
  intros H. apply get_analog_Ok_perm in H. destruct H as (ordered & Hperm & ->).
  destruct (slice_to_firstn years_to_return ordered) as [n ->].
  apply firstn_NoDup.
  eapply Permutation_NoDup; [apply Permutation_sym; exact Hperm |].
  apply candidate_pool_NoDup.
Qed.

Lemma get_analog_no_duplicates_witness : NoDup [1965; 1966].
Proof.
  apply (@get_analog_no_duplicates sample_oni sample_pdo 1967 0 1965 1 5
           [1965; 1966]).
  reflexivity.
Defined.

(** X2: Asking for fewer years gives the first years of the longer answer: for
    0 <= k <= k', the call with count k returns the first k years of what
    the call with count k' returns, and fails as it fails. *)
Theorem get_analog_prefix (oni_values pdo_values : dict (list Q))
  (year look_back start_year raise_to k k' : Z) :
  0 <= k <= k' ->
  get_analog oni_values pdo_values year look_back start_year raise_to k
  = (res <- get_analog oni_values pdo_values year look_back start_year
              raise_to k' ;;
     Ok (firstn (Z.to_nat k) res)).
Proof.
  intros Hk. rewrite !get_analog_fused_scores.
  destruct (fused_scores _ _ _ _ _ _) as [analogs | e]; simpl; [| reflexivity].
  f_equal. unfold select_analogs, slice_to.
  destruct (Z.ltb_spec k 0); [lia |]. destruct (Z.ltb_spec k' 0); [lia |].
  rewrite firstn_firstn. f_equal. lia.
Qed.

Lemma get_analog_prefix_witness :
  get_analog sample_oni sample_pdo 1967 0 1965 1 1
  = (res <- get_analog sample_oni sample_pdo 1967 0 1965 1 5 ;;
     Ok (firstn (Z.to_nat 1) res)).
Proof.
  apply (@get_analog_prefix sample_oni sample_pdo 1967 0 1965 1 1 5). lia.
Defined.

(** X3: A negative count is counted from the end (line 95 is a slice).  The
    call with the count pool_size returns the whole ordering, every
    candidate once; the call with a count k < 0 returns that ordering
    without its last -k years - its first pool_size + k years, none when
    the pool has no more than -k - and raises whenever that call raises. *)
Theorem get_analog_negative_count (oni_values pdo_values : dict (list Q))
  (year look_back start_year raise_to years_to_return : Z) :
  years_to_return < 0 ->
  get_analog oni_values pdo_values year look_back start_year raise_to
    years_to_return
  = (full <- get_analog oni_values pdo_values year look_back start_year
               raise_to (pool_size year look_back start_year) ;;
     Ok (firstn
           (Z.to_nat (pool_size year look_back start_year + years_to_return))
           full)) /\
  (forall full,
      get_analog oni_values pdo_values year look_back start_year raise_to
        (pool_size year look_back start_year) = Ok full ->
      Permutation full (candidate_pool year look_back start_year)) /\
  (forall res,
      get_analog oni_values pdo_values year look_back start_year raise_to
        years_to_return = Ok res ->
      Z.of_nat (length res)
      = Z.max 0 (pool_size year look_back start_year + years_to_return)).
Proof.
  intros Hk. split; [| split].
  - rewrite !get_analog_fused_scores.
    destruct (fused_scores oni_values pdo_values year look_back start_year
                raise_to) as [analogs | e] eqn:Hs; simpl; [| reflexivity].
    pose proof (fused_scores_keys _ _ _ _ _ _ Hs) as K.
    assert (N : NoDup (keys analogs)).
    { rewrite K. apply candidate_pool_NoDup. }
    rewrite !select_analogs_sorted by exact N.
    set (ordered := keys (sorted (@snd Z Q) analogs)).
    assert (Hlen : Z.of_nat (length ordered)
                   = pool_size year look_back start_year).
    { unfold ordered, pool_size.
      rewrite (Permutation_length (sorted_keys_perm (@snd Z Q) analogs)), K.
      reflexivity. }
    rewrite (@slice_to_all _ (pool_size year look_back start_year) ordered)
      by lia.
    unfold slice_to. destruct (Z.ltb_spec years_to_return 0); [| lia].
    rewrite Hlen. reflexivity.
  - intros full H. apply get_analog_Ok_perm in H.
    destruct H as (ordered & Hperm & ->).
    rewrite slice_to_all; [exact Hperm |].
    unfold pool_size. rewrite (Permutation_length Hperm). lia.
  - intros res H. apply get_analog_Ok_perm in H.
    destruct H as (ordered & Hperm & ->).
    unfold slice_to. destruct (Z.ltb_spec years_to_return 0); [| lia].
    rewrite length_firstn. unfold pool_size.
    rewrite <- (Permutation_length Hperm). lia.
Qed.

Lemma get_analog_negative_count_witness :
  get_analog sample_oni sample_pdo 1967 0 1965 1 (-1)
  = (full <- get_analog sample_oni sample_pdo 1967 0 1965 1
               (pool_size 1967 0 1965) ;;
     Ok (firstn (Z.to_nat (pool_size 1967 0 1965 + -1)) full)) /\
  get_analog sample_oni sample_pdo 1967 0 1965 1 (-1) = Ok [1965] /\
  get_analog sample_oni sample_pdo 1967 0 1965 1 (pool_size 1967 0 1965)
  = Ok [1965; 1966].
Proof.
  destruct (@get_analog_negative_count sample_oni sample_pdo 1967 0 1965 1
              (-1) ltac:(lia)) as (Hcut & _ & _).
  split; [exact Hcut |]. split; reflexivity.
Defined.

(** ** What a call raises *)

Lemma oni_progression_Err_key oni_values look_back y e :
  oni_progression oni_values look_back y = Err e ->
  exists k, e = KeyError k /\ ~ In k (keys oni_values).
Proof.
  unfold oni_progression. destruct (look_back =? 0); intros H.
  - apply getitem_Err_KeyError in H. exists y; exact H.
  - apply bind_Err_inv in H. destruct H as [H | (l & _ & H)]; [| discriminate H].
    apply mapM_Err_In in H. destruct H as (z & _ & H).
    apply getitem_Err_KeyError in H. exists z; exact H.
Qed.

Lemma analog_loop_Err_key oni_values pdo_values look_back raise_to
  current_oni current_pdo l st e :
  foldM (analog_step oni_values pdo_values look_back raise_to
           current_oni current_pdo) l st = Err e ->
  (exists k, e = KeyError k /\
             (~ In k (keys oni_values) \/ ~ In k (keys pdo_values))) \/
  (e = ZeroDivisionError /\ raise_to < 0).
Proof.
  revert st; induction l as [| x l IH]; simpl; intros st H.
  - discriminate H.
  - apply bind_Err_inv in H. destruct H as [H | (st1 & _ & H)]; [| eauto].
    unfold analog_step in H.
    apply bind_Err_inv in H. destruct H as [H | (op & _ & H)].
    { left. apply oni_progression_Err_key in H.
      destruct H as (k & -> & Hk). exists k; tauto. }
    apply bind_Err_inv in H. destruct H as [H | (pp & _ & H)].
    { left. apply getitem_Err_KeyError in H. exists x; tauto. }
    apply bind_Err_inv in H. destruct H as [H | (ov & _ & H)].
    { right. eapply distance_vector_Err; eassumption. }
    apply bind_Err_inv in H. destruct H as [H | (pv & _ & H)].
    { right. eapply distance_vector_Err; eassumption. }
    discriminate H.
Qed.

Lemma get_analog_Err_key oni_values pdo_values year look_back start_year
  raise_to years_to_return e :
  get_analog oni_values pdo_values year look_back start_year raise_to
    years_to_return = Err e ->
  (exists k, e = KeyError k /\
             (~ In k (keys oni_values) \/ ~ In k (keys pdo_values))) \/
  (e = ZeroDivisionError /\ raise_to < 0).
Proof.
  intros H. unfold get_analog in H.
  apply bind_Err_inv in H. destruct H as [H | (current_oni & _ & H)].
  { left. apply oni_progression_Err_key in H.
    destruct H as (k & -> & Hk). exists k; tauto. }
  apply bind_Err_inv in H. destruct H as [H | (current_pdo & _ & H)].
  { left. apply getitem_Err_KeyError in H. exists year; tauto. }
  apply bind_Err_inv in H. destruct H as [H | (st & Hst & H)].
  { eapply analog_loop_Err_key; eassumption. }
  apply bind_Err_inv in H. destruct H as [H | (analogs & _ & H)];
    [| discriminate H].
  exfalso.
  assert (N : NoDup (range (effective_start look_back start_year) year))
    by apply range_NoDup.
  destruct (@analog_loop_keys _ _ _ _ _ _ _ _ _ Hst) as [K1 K2];
    simpl; try exact N.
  simpl in K1, K2.
  destruct (@rank_fuse_total _ _ _ K1 K2 N) as [analogs Ha]. congruence.
Qed.

(** X4: A call never raises [ValueError]: the [index] of lines 88-89 looks
    for the years the first loop has bound, so once that loop has ended the
    ranks are always found.  A [KeyError] of a call names a year that the
    ONI or the PDO series really lacks. *)
Theorem get_analog_exceptions (oni_values pdo_values : dict (list Q))
  (year look_back start_year raise_to years_to_return : Z) :
  (forall current_oni current_pdo st,
      foldM (analog_step oni_values pdo_values look_back raise_to
               current_oni current_pdo)
        (candidate_pool year look_back start_year) ([], []) = Ok st ->
      exists analogs,
        rank_fuse (candidate_pool year look_back start_year) (fst st) (snd st)
        = Ok analogs) /\
  (forall e,
      get_analog oni_values pdo_values year look_back start_year raise_to
        years_to_return = Err e ->
      e <> ValueError /\
      forall k, e = KeyError k ->
                ~ In k (keys oni_values) \/ ~ In k (keys pdo_values)).
Proof.
  split.
  - intros current_oni current_pdo st Hst.
    assert (N : NoDup (candidate_pool year look_back start_year))
      by apply candidate_pool_NoDup.
    destruct (@analog_loop_keys _ _ _ _ _ _ _ _ _ Hst) as [K1 K2];
      simpl; try exact N.
    simpl in K1, K2. exact (@rank_fuse_total _ _ _ K1 K2 N).
  - intros e H. apply get_analog_Err_key in H.
    destruct H as [(k & -> & Hk) | [-> _]].
    + split; [discriminate |]. intros k' [= <-]. exact Hk.
    + split; [discriminate |]. intros k' Hk'. discriminate Hk'.
Qed.

Lemma get_analog_exceptions_witness :
  get_analog sample_oni sample_pdo 1967 1 1963 1 5 = Err (KeyError 1963) /\
  KeyError 1963 <> ValueError /\
  (~ In 1963 (keys sample_oni) \/ ~ In 1963 (keys sample_pdo)).
Proof.
  split; [reflexivity |].
  destruct (@get_analog_exceptions sample_oni sample_pdo 1967 1 1963 1 5)
    as [_ Herr].
  destruct (Herr (KeyError 1963) eq_refl) as [Hne Hkey].
  split; [exact Hne | apply Hkey; reflexivity].
Defined.

(** ** A negative look-back *)

Lemma foldM_ext (A S : Type) (f g : S -> A -> result S) (l : list A) (st : S) :
  (forall s x, f s x = g s x) -> foldM f l st = foldM g l st.
Proof.
  intros H. revert st; induction l as [| x l IH]; intros st; simpl.
  - reflexivity.
  - rewrite H. destruct (g st x); simpl; [apply IH | reflexivity].
Qed.

Lemma oni_progression_negative oni_values look_back y :
  look_back < 0 -> oni_progression oni_values look_back y = Ok [].
Proof.
  intros H. unfold oni_progression.
  destruct (Z.eqb_spec look_back 0); [lia |].
  rewrite range_empty by lia. reflexivity.
Qed.

(** X5: Under a negative look-back the window [range(y - look_back, y + 1)] is
    empty: the ONI series is never read, every ONI progression is empty and
    the call returns the same whatever the ONI series holds. *)
Theorem negative_look_back_ignores_oni (oni_values oni_values' pdo_values : dict (list Q))
  (year look_back start_year raise_to years_to_return : Z) :
  look_back < 0 ->
  (forall y, oni_progression oni_values look_back y = Ok []) /\
  get_analog oni_values pdo_values year look_back start_year raise_to
    years_to_return
  = get_analog oni_values' pdo_values year look_back start_year raise_to
      years_to_return.
Proof.
  intros H. split; [intros y; apply oni_progression_negative, H |].
  unfold get_analog. rewrite !oni_progression_negative by exact H. simpl.
  destruct (pdo_progression pdo_values year); simpl; [| reflexivity].
  rewrite (@foldM_ext _ _
             (analog_step oni_values pdo_values look_back raise_to [] a)
             (analog_step oni_values' pdo_values look_back raise_to [] a)).
  - reflexivity.
  - intros s x. unfold analog_step.
    rewrite !oni_progression_negative by exact H. reflexivity.
Qed.

Lemma negative_look_back_ignores_oni_witness :
  (forall y, oni_progression sample_oni (-1) y = Ok []) /\
  get_analog sample_oni sample_pdo 1967 (-1) 1966 1 5
  = get_analog [] sample_pdo 1967 (-1) 1966 1 5.
Proof.
  apply (@negative_look_back_ignores_oni sample_oni [] sample_pdo 1967 (-1)
           1966 1 5).
  lia.
Defined.

(** ** The order of the returned years *)

Lemma precedes_cons (A : Type) (x a b : A) (l : list A) :
  precedes a b l -> precedes a b (x :: l).
Proof.
  intros (l1 & l2 & l3 & ->). exists (x :: l1), l2, l3. reflexivity.
Qed.

Lemma precedes_head (A : Type) (a b : A) (l : list A) :
  In b l -> precedes a b (a :: l).
Proof.
  intros H. apply in_split in H. destruct H as (l2 & l3 & ->).
  exists [], l2, l3. reflexivity.
Qed.

Lemma precedes_app (A : Type) (a b : A) (l l' : list A) :
  In a l -> In b l' -> precedes a b (l ++ l').
Proof.
  intros Ha Hb. apply in_split in Ha. destruct Ha as (a1 & a2 & ->).
  apply in_split in Hb. destruct Hb as (b1 & b2 & ->).
  exists a1, (a2 ++ b1), b2. rewrite <- !app_assoc. reflexivity.
Qed.

Lemma precedes_map (A B : Type) (f : A -> B) (a b : A) (l : list A) :
  precedes a b l -> precedes (f a) (f b) (map f l).
Proof.
  intros (l1 & l2 & l3 & ->). exists (map f l1), (map f l2), (map f l3).
  rewrite !map_app. simpl. rewrite map_app. reflexivity.
Qed.

Lemma precedes_filter (A : Type) (f : A -> bool) (a b : A) (l : list A) :
  precedes a b l -> f a = true -> f b = true -> precedes a b (filter f l).
Proof.
  intros (l1 & l2 & l3 & ->) Ha Hb.
  exists (filter f l1), (filter f l2), (filter f l3).
  rewrite filter_app. simpl. rewrite Ha, filter_app. simpl. rewrite Hb.
  reflexivity.
Qed.

Lemma filter_precedes (A : Type) (f : A -> bool) (a b : A) (l : list A) :
  precedes a b (filter f l) -> precedes a b l.
Proof.
  induction l as [| x l IH]; simpl; intros H.
  - destruct H as ([| ? ?] & l2 & l3 & H); discriminate H.
  - destruct (f x); [| apply precedes_cons, IH, H].
    destruct H as ([| y l1] & l2 & l3 & H); simpl in H.
    + injection H as -> H. apply precedes_head.
      assert (Hb : In b (filter f l)).
      { rewrite H. apply in_or_app. right. left. reflexivity. }
      apply filter_In in Hb. tauto.
    + injection H as -> H. apply precedes_cons, IH.
      exists l1, l2, l3. exact H.
Qed.

Lemma nth_error_precedes (A : Type) (l : list A) (i j : nat) (a b : A) :
  (i < j)%nat -> nth_error l i = Some a -> nth_error l j = Some b ->
  precedes a b l.
Proof.
  revert i j; induction l as [| x l IH]; intros [| i] [| j] Hij Ha Hb;
    simpl in *; try discriminate; try lia.
  - injection Ha as ->. apply precedes_head. eapply nth_error_In; exact Hb.
  - apply precedes_cons. apply (IH i j); [lia | assumption | assumption].
Qed.

Lemma StronglySorted_precedes (A : Type) (R : A -> A -> Prop) (a b : A)
  (l : list A) :
  StronglySorted R l -> precedes a b l -> R a b.
Proof.
  intros Hs (l1 & l2 & l3 & ->).
  induction l1 as [| x l1 IH]; simpl in Hs.
  - apply StronglySorted_inv in Hs. destruct Hs as [_ Hall].
    rewrite Forall_forall in Hall. apply Hall.
    apply in_or_app. right. left. reflexivity.
  - apply StronglySorted_inv in Hs. apply IH. tauto.
Qed.

Lemma range_StronglySorted (a b : Z) : StronglySorted Z.lt (range a b).
Proof.
  unfold range. generalize (Z.to_nat (b - a)) as n. intros n.
  assert (G : forall start,
             StronglySorted Z.lt (map (fun i => a + Z.of_nat i) (seq start n))).
  { induction n as [| n IH]; intros start; simpl; constructor.
    - apply IH.
    - apply Forall_forall. intros z Hz. apply in_map_iff in Hz.
      destruct Hz as (i & <- & Hi). apply in_seq in Hi. lia. }
  apply G.
Qed.

Lemma sorted_StronglySorted (A : Type) (key : A -> Q) (l : list A) :
  StronglySorted (key_le key) (sorted key l).
Proof.
  apply Sorted_StronglySorted; [| apply sorted_Sorted].
  intros x y z Hxy Hyz. unfold key_le in *. eapply Qle_trans; eassumption.
Qed.

Lemma getitem_In_NoDup (V : Type) (d : dict V) (k : Z) (v : V) :
  NoDup (keys d) -> In (k, v) d -> getitem d k = Ok v.
Proof.
  induction d as [| [k' v'] d IH]; simpl; intros N H; [contradiction |].
  inversion N as [| ? ? Hk Nd]; subst.
  destruct H as [H | H].
  - injection H as -> ->. rewrite Z.eqb_refl. reflexivity.
  - destruct (Z.eqb_spec k k') as [-> | _]; [| apply IH; assumption].
    exfalso. apply Hk. change k' with (fst (k', v)). apply in_map. exact H.
Qed.

(** The items behind the years of a returned list. *)
Lemma slice_keys_nth_error (V : Type) (k : Z) (d : dict V) (i : nat) (y : Z) :
  nth_error (slice_to k (keys d)) i = Some y ->
  exists v, nth_error d i = Some (y, v).
Proof.
  destruct (slice_to_firstn k (keys d)) as [n ->].
  rewrite nth_error_firstn. destruct (i <? n)%nat; [| discriminate].
  unfold keys. rewrite nth_error_map.
  destruct (nth_error d i) as [[y' v] |]; simpl; [| discriminate].
  intros [= ->]. exists v. reflexivity.
Qed.

(** X6: Among the returned years the fused score ascends, and of two years of
    equal score the earlier year comes first. *)
Theorem get_analog_order (oni_values pdo_values : dict (list Q))
  (year look_back start_year raise_to years_to_return : Z) (res : list Z) :
  get_analog oni_values pdo_values year look_back start_year raise_to
    years_to_return = Ok res ->
  exists analogs,
    fused_scores oni_values pdo_values year look_back start_year raise_to
    = Ok analogs /\
    forall i j y1 y2,
      (i < j)%nat -> nth_error res i = Some y1 -> nth_error res j = Some y2 ->
      exists s1 s2,
        getitem analogs y1 = Ok s1 /\ getitem analogs y2 = Ok s2 /\
        ((s1 < s2)%Q \/ ((s1 == s2)%Q /\ y1 < y2)).
Proof.
  intros H. apply get_analog_Ok_scores in H.
  destruct H as (analogs & Hs & K & ->).
  exists analogs. split; [exact Hs |].
  intros i j y1 y2 Hij H1 H2.
  apply slice_keys_nth_error in H1. destruct H1 as [s1 H1].
  apply slice_keys_nth_error in H2. destruct H2 as [s2 H2].
  assert (N : NoDup (keys analogs)).
  { rewrite K. apply candidate_pool_NoDup. }
  assert (P : precedes (y1, s1) (y2, s2) (sorted (@snd Z Q) analogs)).
  { eapply nth_error_precedes; eassumption. }
  assert (In1 : In (y1, s1) analogs).
  { eapply Permutation_in; [apply sorted_perm |].
    eapply nth_error_In; exact H1. }
  assert (In2 : In (y2, s2) analogs).
  { eapply Permutation_in; [apply sorted_perm |].
    eapply nth_error_In; exact H2. }
  exists s1, s2.
  split; [apply getitem_In_NoDup; assumption |].
  split; [apply getitem_In_NoDup; assumption |].
  pose proof (StronglySorted_precedes (sorted_StronglySorted _ _) P) as Hle.
  unfold key_le in Hle. simpl in Hle.
  apply Qle_lt_or_eq in Hle. destruct Hle as [Hlt | Heq]; [left; exact Hlt |].
  right. split; [exact Heq |].
  assert (P' : precedes (y1, s1) (y2, s2) analogs).
  { apply (@filter_precedes _ (has_key (@snd Z Q) s1)).
    rewrite <- sorted_stable. apply precedes_filter; [exact P | |];
      unfold has_key; simpl; apply Qeq_bool_iff;
      [reflexivity | symmetry; exact Heq]. }
  apply (precedes_map fst) in P'. simpl in P'.
  fold (keys analogs) in P'. rewrite K in P'.
  exact (StronglySorted_precedes (range_StronglySorted _ _) P').
Qed.

Lemma get_analog_order_witness :
  exists analogs,
    fused_scores sample_oni sample_pdo 1967 0 1965 1 = Ok analogs /\
    forall i j y1 y2,
      (i < j)%nat ->
      nth_error [1965; 1966] i = Some y1 ->
      nth_error [1965; 1966] j = Some y2 ->
      exists s1 s2,
        getitem analogs y1 = Ok s1 /\ getitem analogs y2 = Ok s2 /\
        ((s1 < s2)%Q \/ ((s1 == s2)%Q /\ y1 < y2)).
Proof.
  apply (@get_analog_order sample_oni sample_pdo 1967 0 1965 1 5 [1965; 1966]).
  reflexivity.
Defined.

Lemma In_keys_item (V : Type) (d : dict V) (y : Z) :
  In y (keys d) -> exists v, In (y, v) d.
Proof.
  unfold keys. rewrite in_map_iff. intros ([y' v] & <- & H).
  exists v. exact H.
Qed.

(** X7: The returned years are the best ones: no candidate left out has a
    smaller fused score than a returned year. *)
Theorem get_analog_best (oni_values pdo_values : dict (list Q))
  (year look_back start_year raise_to years_to_return : Z) (res : list Z) :
  get_analog oni_values pdo_values year look_back start_year raise_to
    years_to_return = Ok res ->
  exists analogs,
    fused_scores oni_values pdo_values year look_back start_year raise_to
    = Ok analogs /\
    forall y y',
      In y res -> In y' (candidate_pool year look_back start_year) ->
      ~ In y' res ->
      exists s s',
        getitem analogs y = Ok s /\ getitem analogs y' = Ok s' /\ (s <= s')%Q.
Proof.
  intros H. apply get_analog_Ok_scores in H.
  destruct H as (analogs & Hs & K & ->).
  exists analogs. split; [exact Hs |].
  intros y y' Hy Hy' Hout.
  assert (N : NoDup (keys analogs)).
  { rewrite K. apply candidate_pool_NoDup. }
  set (ordered := sorted (@snd Z Q) analogs) in *.
  destruct (slice_to_firstn years_to_return (keys ordered)) as [n Hn].
  rewrite Hn in Hy, Hout. unfold keys in Hy, Hout.
  rewrite firstn_map in Hy, Hout.
  apply in_map_iff in Hy. destruct Hy as ([y0 s] & Hfst & Hy).
  simpl in Hfst. subst y0.
  rewrite <- K in Hy'. apply In_keys_item in Hy'. destruct Hy' as [s' Hy'].
  assert (Hord : In (y', s') ordered).
  { eapply Permutation_in; [apply Permutation_sym, sorted_perm | exact Hy']. }
  rewrite <- (firstn_skipn n ordered) in Hord.
  apply in_app_or in Hord. destruct Hord as [Hord | Hord].
  { exfalso. apply Hout. change y' with (fst (y', s')). apply in_map. exact Hord. }
  assert (P : precedes (y, s) (y', s') ordered).
  { rewrite <- (firstn_skipn n ordered). apply precedes_app; assumption. }
  exists s, s'.
  split.
  { apply getitem_In_NoDup; [exact N |].
    eapply Permutation_in; [apply sorted_perm |].
    eapply firstn_In; exact Hy. }
  split; [apply getitem_In_NoDup; assumption |].
  exact (StronglySorted_precedes (sorted_StronglySorted _ _) P).
Qed.

Lemma get_analog_best_witness :
  exists analogs,
    fused_scores sample_oni sample_oni 1967 0 1964 1 = Ok analogs /\
    forall y y',
      In y [1964] -> In y' (candidate_pool 1967 0 1964) -> ~ In y' [1964] ->
      exists s s',
        getitem analogs y = Ok s /\ getitem analogs y' = Ok s' /\ (s <= s')%Q.
Proof.
  apply (@get_analog_best sample_oni sample_oni 1967 0 1964 1 1 [1964]).
  reflexivity.
Defined.

(** * Further properties of the distance scorer (lines 70-80) *)

Lemma nth_error_combine_inv (A B : Type) (l1 : list A) (l2 : list B) (i : nat)
  (a : A) (b : B) :
  nth_error (combine l1 l2) i = Some (a, b) ->
  nth_error l1 i = Some a /\ nth_error l2 i = Some b.
Proof.
  revert l2 i; induction l1 as [| x l1 IH]; intros [| y l2] [| i]; simpl;
    try discriminate.
  - intros [= -> ->]. split; reflexivity.
  - apply IH.
Qed.

(** The pairs the scorer compares are the pairs of observations at one
    position of both progressions. *)
Lemma aligned_pairs (analog current : list Q) (x y : Q) :
  In (x, y) (combine (firstn (length current) analog) current) <->
  exists i, nth_error analog i = Some x /\ nth_error current i = Some y.
Proof.
  split.
  - intros H. apply In_nth_error in H. destruct H as [i H].
    apply nth_error_combine_inv in H. destruct H as [Hx Hy].
    exists i. split; [| exact Hy].
    rewrite nth_error_firstn in Hx.
    destruct (i <? length current)%nat; [exact Hx | discriminate Hx].
  - intros (i & Hx & Hy). apply (@nth_error_In _ _ i).
    apply nth_error_combine; [| exact Hy].
    rewrite nth_error_firstn.
    assert (Hi : (i < length current)%nat).
    { apply nth_error_Some. congruence. }
    apply Nat.ltb_lt in Hi. rewrite Hi. exact Hx.
Qed.

Lemma Qabs_diff_zero (x y : Q) : (Qabs (x - y) == 0 <-> x == y)%Q.
Proof.
  split; intros H.
  - assert (Hle : (Qabs (x - y) <= 0)%Q) by (rewrite H; apply Qle_refl).
    apply Qabs_diff_Qle_condition in Hle. destruct Hle as [H1 H2].
    apply Qle_antisym.
    + setoid_replace x with (x - 0)%Q by ring. exact H1.
    + setoid_replace x with (x + 0)%Q by ring. exact H2.
  - setoid_replace (x - y)%Q with 0%Q by (rewrite H; ring). reflexivity.
Qed.

Lemma mapM_In_Err (A B : Type) (f : A -> result B) (l : list A) (x : A)
  (e : error) :
  In x l -> f x = Err e -> exists e', mapM f l = Err e'.
Proof.
  induction l as [| y l IH]; simpl; intros Hin Hx; [contradiction |].
  destruct (f y) as [b | e0] eqn:Hy; simpl; [| eexists; reflexivity].
  destruct Hin as [-> | Hin]; [congruence |].
  destruct (IH Hin Hx) as [e' ->]. simpl. eexists; reflexivity.
Qed.

(** X8: Under a negative exponent, a candidate progression that holds, at
    some position, the observation the target progression holds there makes
    the scorer raise - zero cannot be raised to a negative power: no vector
    is returned. *)
Theorem distance_vector_raises (analog current : list Q) (raise_to : Z)
  (i : nat) (x y : Q) :
  raise_to < 0 ->
  nth_error analog i = Some x -> nth_error current i = Some y ->
  (x == y)%Q ->
  exists e, distance_vector analog current raise_to = Err e.
Proof.
  intros Hneg Hx Hy Heq.
  assert (Hin : In (x, y)
                  (combine (firstn (length current) analog) current)).
  { apply aligned_pairs. exists i. split; assumption. }
  unfold distance_vector.
  apply (@mapM_In_Err _ _ _ _ (x, y) ZeroDivisionError Hin).
  cbn [fst snd]. unfold py_pow. destruct (Z.ltb_spec raise_to 0); [| lia].
  apply Qabs_diff_zero in Heq. apply Qeq_bool_iff in Heq.
  rewrite Heq. reflexivity.
Qed.

Lemma distance_vector_raises_witness :
  exists e, distance_vector [3; 2]%Q [1; 2; 5]%Q (-2) = Err e.
Proof.
  apply (@distance_vector_raises [3; 2]%Q [1; 2; 5]%Q (-2) 1%nat 2%Q 2%Q).
  - lia.
  - reflexivity.
  - reflexivity.
  - reflexivity.
Defined.

(** X9: The distance does not depend on which progression is the candidate:
    for progressions of one length the vector is the same both ways. *)
Theorem distance_vector_symmetric (analog current : list Q) (raise_to : Z) :
  length analog = length current ->
  distance_vector analog current raise_to
  = distance_vector current analog raise_to.
Proof.
  intros Hlen. unfold distance_vector.
  rewrite <- Hlen at 1. rewrite Hlen at 2. rewrite !firstn_all.
  clear Hlen. revert current.
  induction analog as [| x analog IH]; intros [| y current];
    cbn [combine mapM fst snd]; try reflexivity.
  rewrite Qabs_Qminus. rewrite IH. reflexivity.
Qed.

Lemma distance_vector_symmetric_witness :
  distance_vector [1; 5]%Q [3; 2]%Q 2 = distance_vector [3; 2]%Q [1; 5]%Q 2.
Proof.
  apply (@distance_vector_symmetric [1; 5]%Q [3; 2]%Q 2). reflexivity.
Defined.

Lemma sum_nonneg (l : list Q) :
  Forall (fun d => 0 <= d)%Q l ->
  (0 <= sum l)%Q /\ ((sum l == 0)%Q <-> Forall (fun d => d == 0)%Q l).
Proof.
  intros H.
  assert (G : (0 <= fold_right Qplus 0 l)%Q /\
              ((fold_right Qplus 0 l == 0)%Q <-> Forall (fun d => d == 0)%Q l)).
  { induction H as [| d l Hd _ [IH0 IHz]]; simpl.
    - split; [apply Qle_refl |]. split; [constructor | reflexivity].
    - set (rest := fold_right Qplus 0%Q l) in *.
      split; [lra |]. split.
      + intros Hsum. constructor; [lra |]. apply IHz. lra.
      + intros Hall. inversion Hall as [| ? ? Hd0 Hl]; subst.
        apply IHz in Hl. lra. }
  rewrite sum_fold_right. exact G.
Qed.

(** X10: For an exponent E >= 1 the total distance is never negative, and a
    candidate progression that agrees with the target progression at every
    position they share has the total distance zero, the least there
    is. *)
Theorem total_distance_zero (analog current : list Q) (raise_to : Z)
  (v : list Q) :
  0 < raise_to ->
  distance_vector analog current raise_to = Ok v ->
  (0 <= sum v)%Q /\
  ((forall i x y,
       nth_error analog i = Some x -> nth_error current i = Some y ->
       (x == y)%Q) ->
   (sum v == 0)%Q).
Proof.
  intros HE Hv. apply distance_vector_Ok in Hv.
  set (pairs := combine (firstn (length current) analog) current) in *.
  assert (Hnonneg : Forall (fun d => 0 <= d)%Q v).
  { subst v. apply Forall_forall. intros d Hd. apply in_map_iff in Hd.
    destruct Hd as (p & <- & _). apply Qpower_0_le, Qabs_nonneg. }
  destruct (sum_nonneg Hnonneg) as [H0 Hz].
  split; [exact H0 |]. intros Hall. apply Hz.
  subst v. rewrite Forall_forall.
  intros d Hd. apply in_map_iff in Hd.
  destruct Hd as ([x y] & <- & Hin). cbn [fst snd].
  apply aligned_pairs in Hin. destruct Hin as (i & Hx & Hy).
  specialize (Hall i x y Hx Hy). apply Qabs_diff_zero in Hall.
  rewrite Hall. apply Qpower_0. lia.
Qed.

Lemma total_distance_zero_witness :
  distance_vector [1; 2; 3]%Q [1; 2]%Q 1 = Ok [0; 0]%Q /\
  (0 <= sum [0; 0]%Q)%Q /\ (sum [0; 0]%Q == 0)%Q.
Proof.
  split; [reflexivity |].
  destruct (@total_distance_zero [1; 2; 3]%Q [1; 2]%Q 1 [0; 0]%Q
              ltac:(lia) eq_refl) as [Hnonneg Hzero].
  split; [exact Hnonneg |]. apply Hzero.
  intros [| [| i]] x y Hx Hy; simpl in Hx, Hy.
  - injection Hx as <-. injection Hy as <-. reflexivity.
  - injection Hx as <-. injection Hy as <-. reflexivity.
  - destruct i; discriminate Hy.
Defined.

(** * Further properties of the rank fusion (lines 82-95) *)

Lemma index_lt_length (x : Z) (l : list Z) (i : nat) :
  index x l = Ok i -> (i < length l)%nat.
Proof.
  intros H. apply index_Ok in H. destruct H as [H _].
  apply nth_error_Some. congruence.
Qed.

Lemma sort_analogs_length (d : dict (list Q)) :
  NoDup (keys d) -> length (keys (sort_analogs d)) = length (keys d).
Proof.
  intros N. rewrite sort_analogs_sorted by exact N.
  apply Permutation_length, sorted_keys_perm.
Qed.

(** X11: Every fused score lies between 1 and the number of candidates. *)
Theorem fused_score_bounds (pool : list Z)
  (oni_analogs pdo_analogs : dict (list Q)) (analogs : dict Q) (y : Z) (s : Q) :
  keys oni_analogs = pool -> keys pdo_analogs = pool -> NoDup pool ->
  rank_fuse pool oni_analogs pdo_analogs = Ok analogs ->
  getitem analogs y = Ok s ->
  (1 <= s <= inject_Z (Z.of_nat (length pool)))%Q.
Proof.
  intros K1 K2 N Hr Hs. unfold rank_fuse in Hr.
  assert (Hy : In y pool).
  { apply getitem_Ok_In in Hs.
    apply fuse_loop_keys in Hr; simpl; [| exact N]. simpl in Hr. congruence. }
  destruct (@fuse_loop_getitem _ _ _ _ _ Hr N y Hy) as (i & j & Hi & Hj & Hg).
  rewrite Hg in Hs. injection Hs as <-.
  apply index_lt_length in Hi. apply index_lt_length in Hj.
  rewrite sort_analogs_length in Hi by (rewrite K1; exact N).
  rewrite sort_analogs_length in Hj by (rewrite K2; exact N).
  rewrite K1 in Hi. rewrite K2 in Hj.
  unfold Qle, inject_Z. simpl. lia.
Qed.

Lemma fused_score_bounds_witness :
  (1 <= 3 # 2 <= inject_Z (Z.of_nat (length [1965; 1966])))%Q.
Proof.
  apply (@fused_score_bounds [1965; 1966]
           [(1965, [3; 1]%Q); (1966, [1; 2]%Q)]
           [(1965, [1; 1]%Q); (1966, [0; 2]%Q)]
           [(1965, 3 # 2); (1966, 3 # 2)] 1965 (3 # 2)).
  - reflexivity.
  - reflexivity.
  - repeat constructor; simpl; intuition lia.
  - reflexivity.
  - reflexivity.
Defined.

Lemma index_zero (x : Z) (l : list Z) :
  hd_error l = Some x -> index x l = Ok O.
Proof.
  destruct l as [| y l]; simpl; [discriminate |].
  intros [= ->]. rewrite Z.eqb_refl. reflexivity.
Qed.

Lemma index_nonzero (x y : Z) (l : list Z) (i : nat) :
  hd_error l = Some y -> x <> y -> index x l = Ok i -> (1 <= i)%nat.
Proof.
  destruct l as [| z l]; simpl; [discriminate |].
  intros [= ->] Hne. destruct (Z.eqb_spec x y); [contradiction |].
  intros H. bind_inv H. injection H as <-. lia.
Qed.

(** X12: A candidate that is first in both sorted orders - of least total
    distance in ONI and in PDO - is the first year returned, whenever at
    least one year is asked for. *)
Theorem best_in_both_is_first (pool : list Z)
  (oni_analogs pdo_analogs : dict (list Q)) (analogs : dict Q)
  (y years_to_return : Z) :
  keys oni_analogs = pool -> keys pdo_analogs = pool -> NoDup pool ->
  rank_fuse pool oni_analogs pdo_analogs = Ok analogs ->
  hd_error (keys (sort_analogs oni_analogs)) = Some y ->
  hd_error (keys (sort_analogs pdo_analogs)) = Some y ->
  1 <= years_to_return ->
  hd_error (select_analogs analogs years_to_return) = Some y.
Proof.
  intros K1 K2 N Hr Ho Hp Hk. unfold rank_fuse in Hr.
  assert (K : keys analogs = pool).
  { apply fuse_loop_keys in Hr; simpl; assumption. }
  assert (Hy : In y pool).
  { rewrite <- K1. apply sort_analogs_keys_In; [rewrite K1; exact N |].
    destruct (keys (sort_analogs oni_analogs)); simpl in Ho; [discriminate |].
    injection Ho as ->. left; reflexivity. }
  (* the score of [y] is 1, every other score is at least 2 *)
  assert (Sy : getitem analogs y = Ok (Qmake 2 2)).
  { destruct (@fuse_loop_getitem _ _ _ _ _ Hr N y Hy) as (i & j & Hi & Hj & Hg).
    rewrite (@index_zero _ _ Ho) in Hi. rewrite (@index_zero _ _ Hp) in Hj.
    injection Hi as <-. injection Hj as <-. exact Hg. }
  assert (So : forall y' s', In (y', s') analogs -> y' <> y -> (2 <= s')%Q).
  { intros y' s' Hin Hne.
    assert (Hy' : In y' pool).
    { rewrite <- K. change y' with (fst (y', s')). apply in_map. exact Hin. }
    destruct (@fuse_loop_getitem _ _ _ _ _ Hr N y' Hy')
      as (i & j & Hi & Hj & Hg).
    assert (N' : NoDup (keys analogs)) by (rewrite K; exact N).
    rewrite (@getitem_In_NoDup _ _ _ _ N' Hin) in Hg.
    injection Hg as ->.
    apply (@index_nonzero _ _ _ _ Ho Hne) in Hi.
    apply (@index_nonzero _ _ _ _ Hp Hne) in Hj.
    unfold Qle. simpl. lia. }
  rewrite select_analogs_sorted by (rewrite K; exact N).
  set (ordered := sorted (@snd Z Q) analogs).
  assert (Hin : In (y, Qmake 2 2) ordered).
  { apply (Permutation_in _ (Permutation_sym (sorted_perm _ analogs))).
    destruct (In_keys_item analogs y) as [s Hs]; [rewrite K; exact Hy |].
    assert (N' : NoDup (keys analogs)) by (rewrite K; exact N).
    rewrite (@getitem_In_NoDup _ _ _ _ N' Hs) in Sy.
    injection Sy as ->. exact Hs. }
  pose proof (sorted_StronglySorted (@snd Z Q) analogs) as Hsorted.
  fold ordered in Hsorted.
  destruct ordered as [| [yh sh] rest] eqn:E; [contradiction |].
  assert (Hh : yh = y).
  { destruct (Z.eq_dec yh y) as [-> | Hne]; [reflexivity |]. exfalso.
    assert (Hsh : (2 <= sh)%Q).
    { apply (So yh sh); [| exact Hne].
      apply (Permutation_in _ (sorted_perm (@snd Z Q) analogs)).
      fold ordered. rewrite E. left; reflexivity. }
    destruct Hin as [Hin | Hin]; [congruence |].
    apply StronglySorted_inv in Hsorted. destruct Hsorted as [_ Hall].
    rewrite Forall_forall in Hall. specialize (Hall _ Hin).
    unfold key_le in Hall. simpl in Hall.
    unfold Qle in *. simpl in *. lia. }
  subst yh. unfold slice_to. destruct (Z.ltb_spec years_to_return 0); [lia |].
  destruct (Z.to_nat years_to_return) eqn:En; [lia |]. reflexivity.
Qed.

Lemma best_in_both_is_first_witness :
  hd_error (select_analogs [(1965, 4 # 2); (1966, 2 # 2)] 1) = Some 1966.
Proof.
  apply (@best_in_both_is_first [1965; 1966]
           [(1965, [3; 1]%Q); (1966, [1; 2]%Q)]
           [(1965, [1; 1]%Q); (1966, [0; 1]%Q)]
           [(1965, 4 # 2); (1966, 2 # 2)] 1966 1).
  - reflexivity.
  - reflexivity.
  - repeat constructor; simpl; intuition lia.
  - reflexivity.
  - reflexivity.
  - reflexivity.
  - lia.
Defined.

(** * The snowfall layer *)

(** ** The exception monad of the layer *)

Lemma outcome_bind_Return_inv (A B : Type) (r : outcome A)
  (k : A -> outcome B) (b : B) :
  outcome_bind r k = Return b -> exists a, r = Return a /\ k a = Return b.
Proof.
  destruct r as [a | e]; simpl; intros H.
  - exists a; split; [reflexivity | exact H].
  - discriminate H.
Qed.

Lemma outcome_bind_Raise_inv (A B : Type) (r : outcome A)
  (k : A -> outcome B) (e : exception) :
  outcome_bind r k = Raise e ->
  r = Raise e \/ exists a, r = Return a /\ k a = Raise e.
Proof.
  destruct r as [a | e']; simpl; intros H.
  - right; exists a; split; [reflexivity | exact H].
  - left; injection H as ->; reflexivity.
Qed.

Ltac outcome_inv H :=
  let a := fresh "a" in
  let Ha := fresh "Ha" in
  apply outcome_bind_Return_inv in H; destruct H as (a & Ha & H).

(** ** [str] and the season keys *)

Lemma str_injective (a b : Z) : str a = str b -> a = b.
Proof.
  unfold str. intros H. apply DecimalZ.to_int_inj.
  apply (f_equal DecimalString.NilEmpty.int_of_string) in H.
  rewrite !DecimalString.NilEmpty.isi in H. congruence.
Qed.

(** The digits of a number hold no minus sign and end where the text after
    them starts with one. *)
Lemma digits_then_minus (d d' : Decimal.uint) (s s' : string) :
  (DecimalString.NilEmpty.string_of_uint d ++ String "-" s
   = DecimalString.NilEmpty.string_of_uint d' ++ String "-" s')%string ->
  d = d'.
Proof.
  revert d'; induction d as [| d IH | d IH | d IH | d IH | d IH | d IH
                             | d IH | d IH | d IH | d IH];
    intros [| d' | d' | d' | d' | d' | d' | d' | d' | d' | d'];
    simpl; intros H; try reflexivity; try discriminate H;
    injection H as H; f_equal; apply IH; exact H.
Qed.

Lemma str_then_minus (a b : Z) (s s' : string) :
  (str a ++ String "-" s = str b ++ String "-" s')%string -> a = b.
Proof.
  unfold str. intros H. apply DecimalZ.to_int_inj.
  destruct a as [| p | p], b as [| q | q]; simpl in H |- *.
  - reflexivity.
  - f_equal. apply (digits_then_minus (Decimal.D0 Decimal.Nil)) in H. exact H.
  - exfalso. discriminate H.
  - f_equal. apply (digits_then_minus _ (Decimal.D0 Decimal.Nil)) in H. exact H.
  - f_equal. eapply digits_then_minus; exact H.
  - exfalso. pose proof (DecimalPos.Unsigned.to_uint_nonnil p) as Hp.
    destruct (Pos.to_uint p); [congruence | | | | | | | | | |];
      discriminate H.
  - exfalso. discriminate H.
  - exfalso. pose proof (DecimalPos.Unsigned.to_uint_nonnil q) as Hq.
    destruct (Pos.to_uint q); [congruence | | | | | | | | | |];
      discriminate H.
  - f_equal. injection H as H. eapply digits_then_minus; exact H.
Qed.

Lemma season_key_inj (y1 y2 : Z) : season_key y1 = season_key y2 -> y1 = y2.
Proof. unfold season_key. simpl. apply str_then_minus. Qed.

(** X13: Two years never share a season key: no analog's total is overwritten
    by another's. *)
Theorem season_key_injective (y1 y2 : Z) :
  season_key y1 = season_key y2 -> y1 = y2.
Proof.
  unfold season_key. simpl. apply str_then_minus.
Qed.

Lemma season_key_injective_witness : 1999 = 1999.
Proof. apply (@season_key_injective 1999 1999). reflexivity. Defined.

(** ** The loop of [analog_snowfalls] (lines 110-111) *)

Lemma str_dict_set_new (V : Type) (k : string) (v : V) (d : str_dict V) :
  ~ In k (map fst d) -> str_dict_set k v d = d ++ [(k, v)].
Proof.
  induction d as [| [k' v'] d IH]; simpl; intros H.
  - reflexivity.
  - destruct (String.eqb_spec k k') as [-> | Hne]; [tauto |].
    rewrite IH; [reflexivity | tauto].
Qed.

Lemma str_dict_set_not_nil (V : Type) (k : string) (v : V) (d : str_dict V) :
  str_dict_set k v d <> [].
Proof.
  destruct d as [| [k' v'] d]; simpl; [discriminate |].
  destruct (String.eqb k k'); discriminate.
Qed.

Lemma str_getitem_Raise (V : Type) (d : str_dict V) (k : string)
  (e : exception) :
  str_getitem d k = Raise e -> e = StrKeyError k /\ ~ In k (map fst d).
Proof.
  induction d as [| [k' v'] d IH]; simpl; intros H.
  - injection H as <-. split; [reflexivity | tauto].
  - destruct (String.eqb_spec k k') as [-> | Hne]; [discriminate H |].
    destruct (IH H) as [He Hn]. split; [exact He |].
    intros [Hk | Hk]; [congruence | tauto].
Qed.

Lemma str_getitem_In (V : Type) (d : str_dict V) (k : string) :
  In k (map fst d) -> exists v, str_getitem d k = Return v.
Proof.
  induction d as [| [k' v'] d IH]; simpl; intros H; [contradiction |].
  destruct (String.eqb_spec k k') as [-> | Hne]; [eexists; reflexivity |].
  destruct H as [H | H]; [congruence | apply IH; exact H].
Qed.

Lemma season_step_total snowfall_data season_snowfalls year :
  season_step snowfall_data season_snowfalls year
  = (t <-- season_total snowfall_data year ;;
     Return (str_dict_set (season_key year) t season_snowfalls)).
Proof.
  unfold season_step, season_total.
  destruct (str_getitem snowfall_data (str year)); reflexivity.
Qed.

Lemma season_total_Raise snowfall_data year e :
  season_total snowfall_data year = Raise e ->
  e = StrKeyError (str year) /\ ~ In (str year) (map fst snowfall_data).
Proof.
  unfold season_total. intros H. apply outcome_bind_Raise_inv in H.
  destruct H as [H | (a & _ & H)]; [| discriminate H].
  apply str_getitem_Raise in H. exact H.
Qed.

(** A loop that ends normally has bound one season per year, in the order
    of the years. *)
Lemma season_loop_Return snowfall_data years acc seasons :
  outcome_foldM (season_step snowfall_data) years acc = Return seasons ->
  NoDup years ->
  (forall y, In y years -> ~ In (season_key y) (map fst acc)) ->
  exists totals,
    Forall2 (fun y t => season_total snowfall_data y = Return t) years totals /\
    seasons = acc ++ combine (map season_key years) totals.
Proof.
  revert acc; induction years as [| y years IH]; simpl; intros acc H N Hfresh.
  - injection H as <-. exists []. split; [constructor |].
    rewrite app_nil_r. reflexivity.
  - outcome_inv H. rewrite season_step_total in Ha. outcome_inv Ha.
    injection Ha as <-.
    inversion N as [| ? ? Hy Nys]; subst.
    rewrite str_dict_set_new in H by (apply Hfresh; left; reflexivity).
    apply IH in H; [| exact Nys |].
    + destruct H as (totals & Hall & ->). exists (a0 :: totals).
      split; [constructor; assumption |].
      rewrite <- app_assoc. reflexivity.
    + intros z Hz. rewrite map_app. simpl. intros Hin.
      apply in_app_or in Hin. destruct Hin as [Hin | [Hin | []]].
      * exact (Hfresh z (or_intror Hz) Hin).
      * apply season_key_inj in Hin. subst z. exact (Hy Hz).
Qed.

Lemma season_loop_Raise snowfall_data years acc e :
  outcome_foldM (season_step snowfall_data) years acc = Raise e ->
  exists y, In y years /\ e = StrKeyError (str y) /\
            ~ In (str y) (map fst snowfall_data).
Proof.
  revert acc; induction years as [| y years IH]; simpl; intros acc H.
  - discriminate H.
  - apply outcome_bind_Raise_inv in H. destruct H as [H | (a & _ & H)].
    + rewrite season_step_total in H. apply outcome_bind_Raise_inv in H.
      destruct H as [H | (t & _ & H)]; [| discriminate H].
      apply season_total_Raise in H. exists y. tauto.
    + destruct (IH _ H) as (z & Hz & He). exists z. tauto.
Qed.

Lemma season_loop_missing snowfall_data years acc y :
  In y years -> ~ In (str y) (map fst snowfall_data) ->
  exists e, outcome_foldM (season_step snowfall_data) years acc = Raise e.
Proof.
  revert acc; induction years as [| x years IH]; simpl; intros acc Hy Hn.
  - contradiction.
  - destruct (season_step snowfall_data acc x) as [acc' | e] eqn:Hx; simpl;
      [| eexists; reflexivity].
    destruct Hy as [-> | Hy]; [| apply IH; assumption].
    exfalso. unfold season_step in Hx.
    destruct (str_getitem snowfall_data (str y)) as [v | e] eqn:Hg;
      simpl in Hx; [| discriminate Hx].
    clear Hx. revert Hg Hn. clear. induction snowfall_data as [| [k v'] d IHd];
      simpl; [discriminate |].
    destruct (String.eqb_spec (str y) k) as [-> | Hne]; intros Hg Hn.
    + apply Hn. left; reflexivity.
    + apply IHd; [exact Hg | tauto].
Qed.

Lemma season_loop_not_nil snowfall_data years acc seasons :
  outcome_foldM (season_step snowfall_data) years acc = Return seasons ->
  years <> [] \/ acc <> [] -> seasons <> [].
Proof.
  revert acc; induction years as [| y years IH]; simpl; intros acc H Hne.
  - injection H as <-. destruct Hne as [Hne | Hne]; [congruence | exact Hne].
  - outcome_inv H. apply (IH _ H). right.
    unfold season_step in Ha. outcome_inv Ha. injection Ha as <-.
    apply str_dict_set_not_nil.
Qed.

(** ** [median] *)

Lemma median_Raise (data : list Q) (e : exception) :
  median data = Raise e -> data = [] /\ e = StatisticsError.
Proof.
  unfold median. rewrite sorted_length.
  destruct data as [| x data]; simpl length.
  - simpl. intros [= <-]. split; reflexivity.
  - cbn [Nat.eqb]. destruct (_ =? 1)%nat; discriminate.
Qed.

Lemma median_Return (data : list Q) :
  data <> [] -> exists m, median data = Return m.
Proof.
  intros H. destruct (median data) as [m | e] eqn:E; [eexists; reflexivity |].
  apply median_Raise in E. tauto.
Qed.

(** The median of an odd number of values is one of them. *)
Lemma median_odd (data : list Q) (m : Q) :
  median data = Return m -> (length data mod 2 = 1)%nat -> In m data.
Proof.
  unfold median. rewrite sorted_length. intros H Hodd.
  destruct (Nat.eqb_spec (length data) 0) as [| Hn]; [discriminate H |].
  assert (Hmid : (length data / 2 < length data)%nat)
    by (apply Nat.div_lt; lia).
  rewrite Hodd in H. cbn [Nat.eqb] in H. injection H as <-.
  apply (Permutation_in _ (sorted_perm (fun x : Q => x) data)).
  apply nth_In. rewrite sorted_length. exact Hmid.
Qed.

(** ** [analog_snowfalls] (lines 98-115) *)

Lemma values_combine (A B : Type) (ks : list A) (vs : list B) :
  length ks = length vs -> values (combine ks vs) = vs.
Proof.
  revert vs; induction ks as [| k ks IH]; intros [| v vs]; simpl;
    try discriminate; [reflexivity |].
  intros [= H]. unfold values in *. simpl. rewrite IH by exact H. reflexivity.
Qed.

(** X14: For distinct analog years the returned dictionary holds the airport as
    given, one season per year in the order of the years, each under the
    key of its year and with the total of the year's amounts, and the
    median of these totals. *)
Theorem analog_snowfalls_seasons (snowfall_data : str_dict (list Q))
  (analog_years : list Z) (airport : string) (r : analog_snowfall_data) :
  NoDup analog_years ->
  analog_snowfalls snowfall_data analog_years airport = Return r ->
  data_airport r = airport /\
  exists totals,
    Forall2 (fun y t => season_total snowfall_data y = Return t)
      analog_years totals /\
    data_season_snowfalls r = combine (map season_key analog_years) totals /\
    median totals = Return (data_median r).
Proof.
  intros N H. unfold analog_snowfalls in H.
  outcome_inv H. outcome_inv H. injection H as <-. simpl.
  split; [reflexivity |].
  apply season_loop_Return in Ha; [| exact N | intros y _ []].
  destruct Ha as (totals & Hall & ->). simpl in *.
  exists totals. split; [exact Hall |]. split; [reflexivity |].
  rewrite values_combine in Ha0; [exact Ha0 |].
  rewrite length_map. eapply Forall2_length; exact Hall.
Qed.

Lemma analog_snowfalls_seasons_witness :
  exists totals,
    Forall2 (fun y t => season_total sample_snowfall y = Return t)
      [1966; 1965] totals /\
    [("1966-67"%string, 20%Q); ("1965-66"%string, 15%Q)]
    = combine (map season_key [1966; 1965]) totals /\
    median totals = Return (35 # 2).
Proof.
  apply (@analog_snowfalls_seasons sample_snowfall [1966; 1965] "IAD"%string
           {| data_airport := "IAD"%string;
              data_season_snowfalls :=
                [("1966-67"%string, 20%Q); ("1965-66"%string, 15%Q)];
              data_median := 35 # 2 |}).
  - repeat constructor; simpl; intuition lia.
  - reflexivity.
Defined.

Lemma analog_snowfalls_Raise_inv snowfall_data analog_years airport e :
  analog_snowfalls snowfall_data analog_years airport = Raise e ->
  (e = StatisticsError /\ analog_years = []) \/
  (exists y, In y analog_years /\ e = StrKeyError (str y) /\
             ~ In (str y) (map fst snowfall_data)).
Proof.
  intros H. unfold analog_snowfalls in H.
  apply outcome_bind_Raise_inv in H. destruct H as [H | (seasons & Hs & H)].
  - right. apply season_loop_Raise in H. exact H.
  - apply outcome_bind_Raise_inv in H. destruct H as [H | (m & _ & H)];
      [| discriminate H].
    left. apply median_Raise in H. destruct H as [Hnil ->].
    split; [reflexivity |].
    destruct analog_years as [| y ys]; [reflexivity |]. exfalso.
    apply (@season_loop_not_nil _ _ _ _ Hs); [left; discriminate |].
    unfold values in Hnil. destruct seasons; [reflexivity | discriminate].
Qed.

(** X15: [analog_snowfalls] raises in two cases only: with no analog year, the
    [StatisticsError] of the median of no data; with a year whose [str] is
    not a key of the snowfall data, the [KeyError] of the first such
    year. *)
Theorem analog_snowfalls_raises (snowfall_data : str_dict (list Q))
  (analog_years : list Z) (airport : string) :
  ((exists e, analog_snowfalls snowfall_data analog_years airport = Raise e)
   <->
   (analog_years = [] \/
    exists y, In y analog_years /\
              ~ In (str y) (map fst snowfall_data))) /\
  (forall e, analog_snowfalls snowfall_data analog_years airport = Raise e ->
     (e = StatisticsError /\ analog_years = []) \/
     (exists y, In y analog_years /\ e = StrKeyError (str y) /\
                ~ In (str y) (map fst snowfall_data))).
Proof.
  split; [| apply analog_snowfalls_Raise_inv]. split.
  - intros [e H].
    destruct (analog_snowfalls_Raise_inv _ _ _ H)
      as [[_ Hnil] | (y & Hy & _ & Hn)].
    + left; exact Hnil.
    + right. exists y. tauto.
  - intros [-> | (y & Hy & Hn)].
    + exists StatisticsError. reflexivity.
    + destruct (season_loop_missing snowfall_data analog_years [] y Hy Hn)
        as [e He].
      exists e. unfold analog_snowfalls. rewrite He. reflexivity.
Qed.

(** X16: For an odd number of seasons - as with the five analog years
    [get_analog] returns by default - the median returned is the total of
    one of the seasons returned. *)
Theorem analog_snowfalls_odd_median (snowfall_data : str_dict (list Q))
  (analog_years : list Z) (airport : string) (r : analog_snowfall_data) :
  analog_snowfalls snowfall_data analog_years airport = Return r ->
  (length (data_season_snowfalls r) mod 2 = 1)%nat ->
  exists season, In (season, data_median r) (data_season_snowfalls r).
Proof.
  intros H Hodd. unfold analog_snowfalls in H.
  outcome_inv H. outcome_inv H. injection H as <-. simpl in *.
  assert (Hin : In a0 (values a)).
  { apply (@median_odd _ _ Ha0). unfold values. rewrite length_map.
    exact Hodd. }
  unfold values in Hin. apply in_map_iff in Hin.
  destruct Hin as ([season t] & <- & Hin). exists season. exact Hin.
Qed.

Lemma analog_snowfalls_odd_median_witness :
  exists season,
    In (season, 20%Q)
       [("1965-66"%string, 15%Q); ("1966-67"%string, 20%Q);
        ("1967-68"%string, 36%Q)].
Proof.
  apply (@analog_snowfalls_odd_median sample_snowfall [1965; 1966; 1967]
           "IAD"%string
           {| data_airport := "IAD"%string;
              data_season_snowfalls :=
                [("1965-66"%string, 15%Q); ("1966-67"%string, 20%Q);
                 ("1967-68"%string, 36%Q)];
              data_median := 20 |}).
  - reflexivity.
  - reflexivity.
Defined.

(** ** From [get_analog] to [analog_snowfalls] *)

Lemma get_analog_empty_pool oni_values pdo_values year look_back start_year
  raise_to years_to_return :
  year <= effective_start look_back start_year ->
  get_analog oni_values pdo_values year look_back start_year raise_to
    years_to_return
  = (_ <- oni_progression oni_values look_back year ;;
     _ <- pdo_progression pdo_values year ;;
     Ok []).
Proof.
  intros H. unfold get_analog. rewrite (range_empty H). simpl.
  destruct (oni_progression oni_values look_back year); simpl; [| reflexivity].
  destruct (pdo_progression pdo_values year); simpl; [| reflexivity].
  unfold select_analogs. simpl. rewrite slice_to_nil. reflexivity.
Qed.

(** X17: With no candidate year - the target at or below the effective start -
    what [get_analog] returns makes [analog_snowfalls] raise
    [StatisticsError]: there is no median of no season. *)
Theorem no_candidate_no_median (oni_values pdo_values : dict (list Q))
  (snowfall_data : str_dict (list Q)) (airport : string)
  (year look_back start_year raise_to years_to_return : Z) (res : list Z) :
  year <= effective_start look_back start_year ->
  get_analog oni_values pdo_values year look_back start_year raise_to
    years_to_return = Ok res ->
  analog_snowfalls snowfall_data res airport = Raise StatisticsError.
Proof.
  intros Hy H. rewrite get_analog_empty_pool in H by exact Hy.
  bind_inv H. bind_inv H. injection H as <-. reflexivity.
Qed.

Lemma no_candidate_no_median_witness :
  analog_snowfalls sample_snowfall [] "IAD"%string = Raise StatisticsError.
Proof.
  apply (@no_candidate_no_median sample_oni sample_pdo sample_snowfall
           "IAD"%string 1965 0 1965 1 5 []).
  - unfold effective_start. simpl. lia.
  - reflexivity.
Defined.

(** X18: The seasons of a prediction are the seasons of the years [get_analog]
    returned, most similar first, one for each: with a count k >= 0 there
    are min(k, pool_size) of them. *)
Theorem prediction_seasons (oni_values pdo_values : dict (list Q))
  (snowfall_data : str_dict (list Q)) (airport : string)
  (year look_back start_year raise_to years_to_return : Z) (res : list Z)
  (r : analog_snowfall_data) :
  0 <= years_to_return ->
  get_analog oni_values pdo_values year look_back start_year raise_to
    years_to_return = Ok res ->
  analog_snowfalls snowfall_data res airport = Return r ->
  map fst (data_season_snowfalls r) = map season_key res /\
  Z.of_nat (length (data_season_snowfalls r))
  = Z.min years_to_return (pool_size year look_back start_year).
Proof.
  intros Hk Hres Hr.
  assert (N : NoDup res).
  { apply get_analog_Ok_perm in Hres. destruct Hres as (ordered & Hperm & ->).
    destruct (slice_to_firstn years_to_return ordered) as [n ->].
    apply firstn_NoDup.
    eapply Permutation_NoDup; [apply Permutation_sym; exact Hperm |].
    apply candidate_pool_NoDup. }
  unfold analog_snowfalls in Hr. outcome_inv Hr. outcome_inv Hr.
  injection Hr as <-. simpl.
  apply season_loop_Return in Ha; [| exact N | intros y _ []].
  destruct Ha as (totals & Hall & ->). simpl.
  assert (Hlen : length (map season_key res) = length totals).
  { rewrite length_map. eapply Forall2_length; exact Hall. }
  split.
  - clear - Hlen. revert Hlen. generalize (map season_key res) as ks.
    intros ks; revert totals; induction ks as [| k ks IH];
      intros [| t totals]; simpl; try discriminate; [reflexivity |].
    intros [= H]. rewrite IH by exact H. reflexivity.
  - rewrite length_combine, <- Hlen, Nat.min_id, length_map.
    apply get_analog_Ok_perm in Hres. destruct Hres as (ordered & Hperm & ->).
    rewrite slice_to_length by exact Hk.
    unfold pool_size. rewrite (Permutation_length Hperm). reflexivity.
Qed.

Lemma prediction_seasons_witness :
  map fst [("1965-66"%string, 15%Q); ("1966-67"%string, 20%Q)]
  = map season_key [1965; 1966] /\
  Z.of_nat (length [("1965-66"%string, 15%Q); ("1966-67"%string, 20%Q)])
  = Z.min 5 (pool_size 1967 0 1965).
Proof.
  apply (@prediction_seasons sample_oni sample_pdo sample_snowfall
           "IAD"%string 1967 0 1965 1 5 [1965; 1966]
           {| data_airport := "IAD"%string;
              data_season_snowfalls :=
                [("1965-66"%string, 15%Q); ("1966-67"%string, 20%Q)];
              data_median := 35 # 2 |}).
  - lia.
  - reflexivity.
  - reflexivity.
Defined.

(** ** [check_accuracy] (lines 139-167) *)

Lemma range_cons (a b : Z) : a < b -> range a b = a :: range (a + 1) b.
Proof.
  intros H. unfold range.
  replace (Z.to_nat (b - a)) with (S (Z.to_nat (b - (a + 1)))) by lia.
  simpl. f_equal; [lia |].
  rewrite <- seq_shift, map_map. apply map_ext. intros i. lia.
Qed.

Lemma truediv_Return (x y q : Q) :
  truediv x y = Return q -> ~ (y == 0)%Q /\ q = (x / y)%Q.
Proof.
  unfold truediv. destruct (Qeq_bool y 0) eqn:E; [discriminate |].
  intros [= <-]. split; [| reflexivity].
  intros H. apply Qeq_bool_iff in H. congruence.
Qed.

Section AccuracyLoop.
Variables oni_values pdo_values : dict (list Q).
Variable snowfall_data : str_dict (list Q).
Variable airport : string.

Local Abbreviation step :=
  (accuracy_step oni_values pdo_values snowfall_data airport).

Lemma accuracy_step_Return accuracy year accuracy' :
  step accuracy year = Return accuracy' ->
  exists analog_years r total,
    get_analog oni_values pdo_values year 0 1964 1 5 = Ok analog_years /\
    analog_snowfalls snowfall_data analog_years airport = Return r /\
    season_total snowfall_data year = Return total /\
    ~ (total == 0)%Q /\
    accuracy' = dict_set year (data_median r / total * 100)%Q accuracy.
Proof.
  unfold accuracy_step. intros H.
  outcome_inv H. outcome_inv H. outcome_inv H. outcome_inv H.
  injection H as <-.
  destruct (get_analog oni_values pdo_values year 0 1964 1 5)
    as [analog_years | e]; [| discriminate Ha].
  injection Ha as <-. apply truediv_Return in Ha2. destruct Ha2 as [Hnz ->].
  exists analog_years, a0, (sum a1).
  repeat split; try assumption; try reflexivity.
  unfold season_total. rewrite Ha1. reflexivity.
Qed.

Lemma accuracy_loop_keys l accuracy accuracy' :
  outcome_foldM step l accuracy = Return accuracy' ->
  NoDup (keys accuracy ++ l) ->
  keys accuracy' = keys accuracy ++ l.
Proof.
  revert accuracy; induction l as [| y l IH]; simpl; intros accuracy H N.
  - injection H as <-. rewrite app_nil_r. reflexivity.
  - outcome_inv H.
    destruct (accuracy_step_Return _ _ Ha) as (ys & r & t & _ & _ & _ & _ & ->).
    assert (K : ~ In y (keys accuracy)).
    { intros Hin. apply NoDup_remove_2 in N. apply N, in_or_app. left; exact Hin. }
    apply IH in H; rewrite keys_dict_set_new in * by exact K;
      rewrite <- ?app_assoc in *; simpl; assumption.
Qed.

Lemma accuracy_loop_other l accuracy accuracy' y :
  outcome_foldM step l accuracy = Return accuracy' -> ~ In y l ->
  getitem accuracy' y = getitem accuracy y.
Proof.
  revert accuracy; induction l as [| x l IH]; simpl; intros accuracy H Hy.
  - injection H as <-. reflexivity.
  - outcome_inv H.
    destruct (accuracy_step_Return _ _ Ha) as (ys & r & t & _ & _ & _ & _ & ->).
    rewrite (IH _ H) by tauto.
    apply getitem_dict_set_other. intros ->. tauto.
Qed.

Lemma accuracy_loop_Return l accuracy accuracy' :
  outcome_foldM step l accuracy = Return accuracy' -> NoDup l ->
  forall year, In year l ->
    exists analog_years r total,
      get_analog oni_values pdo_values year 0 1964 1 5 = Ok analog_years /\
      analog_snowfalls snowfall_data analog_years airport = Return r /\
      season_total snowfall_data year = Return total /\
      ~ (total == 0)%Q /\
      getitem accuracy' year = Ok (data_median r / total * 100)%Q.
Proof.
  revert accuracy; induction l as [| x l IH]; simpl;
    intros accuracy H N year Hy.
  - contradiction.
  - outcome_inv H. inversion N as [| ? ? Hx Nl]; subst.
    destruct Hy as [<- | Hy].
    + destruct (accuracy_step_Return _ _ Ha)
        as (ys & r & t & H1 & H2 & H3 & H4 & ->).
      exists ys, r, t. repeat split; try assumption.
      rewrite (@accuracy_loop_other _ _ _ _ H Hx).
      apply getitem_dict_set_same.
    + eapply IH; eassumption.
Qed.
End AccuracyLoop.

(** X19: From 2022 on there is no year to check: the mean of no accuracy raises
    [StatisticsError] and nothing is printed. *)
Theorem check_accuracy_no_year (oni_values pdo_values : dict (list Q))
  (snowfall_data : str_dict (list Q)) (airport : string) (start_year : Z) :
  2022 <= start_year ->
  check_accuracy oni_values pdo_values snowfall_data airport start_year
  = Raise StatisticsError.
Proof.
  intros H. unfold check_accuracy. rewrite (range_empty H). reflexivity.
Qed.

Lemma check_accuracy_no_year_witness :
  check_accuracy sample_oni sample_pdo sample_snowfall "IAD"%string 2022
  = Raise StatisticsError.
Proof.
  apply (@check_accuracy_no_year sample_oni sample_pdo sample_snowfall
           "IAD"%string 2022).
  lia.
Defined.

Lemma check_accuracy_first_year oni_values pdo_values snowfall_data airport
  start_year :
  start_year <= 1964 ->
  check_accuracy oni_values pdo_values snowfall_data airport start_year
  = match getitem oni_values start_year, getitem pdo_values start_year with
    | Err e, _ => Raise (Builtin e)
    | Ok _, Err e => Raise (Builtin e)
    | Ok _, Ok _ => Raise StatisticsError
    end.
Proof.
  intros H. unfold check_accuracy.
  rewrite (@range_cons start_year 2022) by lia.
  cbn [outcome_foldM]. unfold accuracy_step at 1.
  rewrite get_analog_empty_pool by (unfold effective_start; simpl; lia).
  unfold oni_progression, pdo_progression. simpl.
  destruct (getitem oni_values start_year); simpl; [| reflexivity].
  destruct (getitem pdo_values start_year); reflexivity.
Qed.

(** X20: A start at or before 1964 never gives a report.  [get_analog] is called
    with its default start of 1964, so the first year checked has no
    candidate: the call raises the [KeyError] of that year when one of the
    two series lacks it, and the [StatisticsError] of an empty median
    otherwise. *)
Theorem check_accuracy_early_start (oni_values pdo_values : dict (list Q))
  (snowfall_data : str_dict (list Q)) (airport : string) (start_year : Z) :
  start_year <= 1964 ->
  (In start_year (keys oni_values) /\ In start_year (keys pdo_values) /\
   check_accuracy oni_values pdo_values snowfall_data airport start_year
   = Raise StatisticsError) \/
  ((~ In start_year (keys oni_values) \/ ~ In start_year (keys pdo_values)) /\
   check_accuracy oni_values pdo_values snowfall_data airport start_year
   = Raise (Builtin (KeyError start_year))).
Proof.
  intros H. rewrite (check_accuracy_first_year _ _ _ _ H).
  destruct (getitem oni_values start_year) as [o | e] eqn:Ho.
  - destruct (getitem pdo_values start_year) as [p | e] eqn:Hp.
    + left. apply getitem_Ok_In in Ho. apply getitem_Ok_In in Hp.
      split; [exact Ho |]. split; [exact Hp | reflexivity].
    + right. apply getitem_Err_KeyError in Hp. destruct Hp as [-> Hp].
      split; [right; exact Hp | reflexivity].
  - right. apply getitem_Err_KeyError in Ho. destruct Ho as [-> Ho].
    split; [left; exact Ho | reflexivity].
Qed.

Lemma check_accuracy_early_start_witness :
  (In 1964 (keys sample_oni) /\ In 1964 (keys sample_pdo) /\
   check_accuracy sample_oni sample_pdo sample_snowfall "IAD"%string 1964
   = Raise StatisticsError) \/
  ((~ In 1964 (keys sample_oni) \/ ~ In 1964 (keys sample_pdo)) /\
   check_accuracy sample_oni sample_pdo sample_snowfall "IAD"%string 1964
   = Raise (Builtin (KeyError 1964))).
Proof.
  apply (@check_accuracy_early_start sample_oni sample_pdo sample_snowfall
           "IAD"%string 1964).
  lia.
Defined.

(** X21: When [check_accuracy] gets to its report, the start lies in
    1965..2021, the report has one accuracy per year from the start to
    2021, in that order, and their mean; for each of these years
    [get_analog] (with its defaults) returned at most 5 analog years, all
    from 1964 to the year before, [analog_snowfalls] returned their median,
    the year's own snowfall total is not zero, and the accuracy is
    median / total * 100. *)
Theorem check_accuracy_report (oni_values pdo_values : dict (list Q))
  (snowfall_data : str_dict (list Q)) (airport : string) (start_year : Z)
  (m : Q) (accuracy : dict Q) :
  check_accuracy oni_values pdo_values snowfall_data airport start_year
  = Return (m, accuracy) ->
  1964 < start_year < 2022 /\
  keys accuracy = range start_year 2022 /\
  mean (values accuracy) = Return m /\
  forall year, start_year <= year < 2022 ->
    exists analog_years r total,
      get_analog oni_values pdo_values year 0 1964 1 5 = Ok analog_years /\
      (length analog_years <= 5)%nat /\
      (forall y, In y analog_years -> 1964 <= y < year) /\
      analog_snowfalls snowfall_data analog_years airport = Return r /\
      season_total snowfall_data year = Return total /\
      ~ (total == 0)%Q /\
      getitem accuracy year = Ok (data_median r / total * 100)%Q.
Proof.
  intros H.
  assert (Hhi : start_year < 2022).
  { destruct (Z.lt_ge_cases start_year 2022) as [Hlt | Hge]; [exact Hlt |].
    unfold check_accuracy in H. rewrite (range_empty Hge) in H.
    discriminate H. }
  assert (Hlo : 1964 < start_year).
  { destruct (Z.lt_ge_cases 1964 start_year) as [Hlt | Hge]; [exact Hlt |].
    rewrite check_accuracy_first_year in H by exact Hge.
    destruct (getitem oni_values start_year);
      [destruct (getitem pdo_values start_year) |]; discriminate H. }
  split; [lia |].
  unfold check_accuracy in H. outcome_inv H. outcome_inv H.
  injection H as <- <-.
  assert (N : NoDup (range start_year 2022)) by apply range_NoDup.
  split; [apply (accuracy_loop_keys _ _ _ _ _ _ Ha); exact N |].
  split; [exact Ha0 |].
  intros year Hyear.
  destruct (@accuracy_loop_Return _ _ _ _ _ _ _ Ha N year)
    as (ys & r & total & Hg & Hs & Ht & Hnz & Hacc);
    [apply range_In; exact Hyear |].
  exists ys, r, total.
  split; [exact Hg |].
  pose proof (get_analog_Ok_perm _ _ _ _ _ _ _ Hg) as (ordered & Hperm & Hres).
  split.
  { pose proof (@slice_to_length _ 5 ordered ltac:(lia)) as Hl.
    rewrite <- Hres in Hl. lia. }
  split.
  { intros y Hy. rewrite Hres in Hy. apply slice_to_In in Hy.
    apply (Permutation_in _ Hperm) in Hy. apply candidate_pool_In in Hy.
    unfold effective_start in Hy. simpl in Hy. exact Hy. }
  repeat split; assumption.
Qed.

Lemma check_accuracy_report_witness :
  1964 < 2020 < 2022 /\
  keys [(2020, 1100 # 60); (2021, 1100 # 61)] = range 2020 2022 /\
  mean (values [(2020, 1100 # 60); (2021, 1100 # 61)])
  = Return (133100 # 7320).
Proof.
  destruct (@check_accuracy_report long_oni long_pdo long_snowfall
              "IAD"%string 2020 (133100 # 7320)
              [(2020, 1100 # 60); (2021, 1100 # 61)])
    as (H1 & H2 & H3 & _).
  - vm_compute. reflexivity.
  - split; [exact H1 |]. split; [exact H2 | exact H3].
Defined.

(** ** The order of the analog years does not matter *)

Lemma StronglySorted_head_le (a x : Q) (l : list Q) :
  StronglySorted Qle (a :: l) -> In x (a :: l) -> (a <= x)%Q.
Proof.
  intros Hs Hx. apply StronglySorted_inv in Hs. destruct Hs as [_ Hall].
  destruct Hx as [<- | Hx]; [apply Qle_refl |].
  rewrite Forall_forall in Hall. apply Hall. exact Hx.
Qed.

(** Two sorted lists with the same numbers hold equal numbers at every
    position. *)
Lemma sorted_unique (l l' : list Q) :
  StronglySorted Qle l -> StronglySorted Qle l' ->
  Permutation (map Qred l) (map Qred l') ->
  map Qred l = map Qred l'.
Proof.
  revert l'; induction l as [| a t IH]; intros l' Hs Hs' Hp.
  - simpl in *. apply Permutation_nil in Hp. congruence.
  - destruct l' as [| b t'].
    { apply Permutation_sym, Permutation_nil in Hp. discriminate Hp. }
    assert (Hab : Qred a = Qred b).
    { apply Qred_eq_iff. apply Qle_antisym.
      - assert (Hin : In (Qred b) (map Qred (a :: t))).
        { apply (Permutation_in _ (Permutation_sym Hp)). left; reflexivity. }
        apply in_map_iff in Hin. destruct Hin as (x & Hx & Hin).
        apply Qred_eq_iff in Hx. rewrite <- Hx.
        apply (StronglySorted_head_le Hs Hin).
      - assert (Hin : In (Qred a) (map Qred (b :: t'))).
        { apply (Permutation_in _ Hp). left; reflexivity. }
        apply in_map_iff in Hin. destruct Hin as (x & Hx & Hin).
        apply Qred_eq_iff in Hx. rewrite <- Hx.
        apply (StronglySorted_head_le Hs' Hin). }
    simpl in *. rewrite Hab in *. f_equal.
    apply Permutation_cons_inv in Hp.
    apply StronglySorted_inv in Hs. apply StronglySorted_inv in Hs'.
    apply IH; tauto.
Qed.

Lemma map_Qred_nth (l l' : list Q) (i : nat) :
  map Qred l = map Qred l' -> (nth i l 0 == nth i l' 0)%Q.
Proof.
  revert l' i; induction l as [| a t IH]; intros [| b t'] i H;
    simpl in H; try discriminate H.
  - reflexivity.
  - injection H as Hab Ht. destruct i as [| i]; simpl.
    + apply Qred_eq_iff. exact Hab.
    + apply IH. exact Ht.
Qed.

Lemma median_Permutation (data data' : list Q) (m : Q) :
  Permutation data data' -> median data = Return m ->
  exists m', median data' = Return m' /\ (m' == m)%Q.
Proof.
  intros Hp. unfold median.
  set (s := sorted (fun x : Q => x) data).
  set (s' := sorted (fun x : Q => x) data').
  assert (Hlen : length s' = length s).
  { unfold s, s'. rewrite !sorted_length.
    symmetry. apply Permutation_length. exact Hp. }
  assert (Hnth : forall i, (nth i s' 0 == nth i s 0)%Q).
  { intros i. apply map_Qred_nth. apply sorted_unique.
    - apply (sorted_StronglySorted (fun x : Q => x)).
    - apply (sorted_StronglySorted (fun x : Q => x)).
    - apply Permutation_map.
      apply perm_trans with data'; [apply sorted_perm |].
      apply perm_trans with data; [apply Permutation_sym; exact Hp |].
      apply Permutation_sym, sorted_perm. }
  rewrite Hlen.
  destruct (length s =? 0)%nat; [discriminate |].
  destruct (length s mod 2 =? 1)%nat; intros [= <-]; eexists;
    (split; [reflexivity |]).
  - apply Hnth.
  - rewrite (Hnth (length s / 2 - 1)%nat), (Hnth (length s / 2)%nat).
    reflexivity.
Qed.

Lemma Forall2_Permutation (A B : Type) (R : A -> B -> Prop)
  (l l' : list A) (ts : list B) :
  Permutation l l' -> Forall2 R l ts ->
  exists ts', Forall2 R l' ts' /\ Permutation ts ts'.
Proof.
  intros Hp. revert ts. induction Hp as [| x l l' _ IH | x y l | l l1 l2 _ IH1 _ IH2];
    intros ts H.
  - inversion H; subst. exists []. split; constructor.
  - inversion H as [| ? t ? ts0 Hx Hl]; subst.
    destruct (IH _ Hl) as (ts' & H' & Hp'). exists (t :: ts').
    split; [constructor; assumption | apply perm_skip; exact Hp'].
  - inversion H as [| ? t1 ? ts1 Hy H1]; subst.
    inversion H1 as [| ? t2 ? ts2 Hx H2]; subst.
    exists (t2 :: t1 :: ts2). split; [repeat constructor; assumption |].
    apply perm_swap.
  - destruct (IH1 _ H) as (ts1 & H1 & Hp1).
    destruct (IH2 _ H1) as (ts2 & H2 & Hp2).
    exists ts2. split; [exact H2 | eapply perm_trans; eassumption].
Qed.

Lemma season_loop_total snowfall_data years totals acc :
  NoDup years ->
  (forall y, In y years -> ~ In (season_key y) (map fst acc)) ->
  Forall2 (fun y t => season_total snowfall_data y = Return t) years totals ->
  outcome_foldM (season_step snowfall_data) years acc
  = Return (acc ++ combine (map season_key years) totals).
Proof.
  intros N Hfresh H. revert acc N Hfresh.
  induction H as [| y t years totals Hy _ IH]; intros acc N Hfresh; simpl.
  - rewrite app_nil_r. reflexivity.
  - rewrite season_step_total, Hy. simpl.
    inversion N as [| ? ? Hnotin Nys]; subst.
    rewrite str_dict_set_new by (apply Hfresh; left; reflexivity).
    rewrite IH; [rewrite <- app_assoc; reflexivity | exact Nys |].
    intros z Hz. rewrite map_app. simpl. intros Hin.
    apply in_app_or in Hin. destruct Hin as [Hin | [Hin | []]].
    + exact (Hfresh z (or_intror Hz) Hin).
    + apply season_key_inj in Hin. subst z. exact (Hnotin Hz).
Qed.

(** X22: The prediction depends on which years are analogs, not on their order:
    for distinct analog years given in another order, [analog_snowfalls]
    returns as well, with an equal median. *)
Theorem analog_snowfalls_any_order (snowfall_data : str_dict (list Q))
  (analog_years analog_years' : list Z) (airport : string)
  (r : analog_snowfall_data) :
  NoDup analog_years -> Permutation analog_years analog_years' ->
  analog_snowfalls snowfall_data analog_years airport = Return r ->
  exists r',
    analog_snowfalls snowfall_data analog_years' airport = Return r' /\
    (data_median r' == data_median r)%Q.
Proof.
  intros N Hp H. unfold analog_snowfalls in H.
  outcome_inv H. outcome_inv H. injection H as <-. simpl.
  apply season_loop_Return in Ha; [| exact N | intros y _ []].
  destruct Ha as (totals & Hall & ->). simpl in Ha0.
  rewrite values_combine in Ha0
    by (rewrite length_map; eapply Forall2_length; exact Hall).
  destruct (Forall2_Permutation Hp Hall) as (totals' & Hall' & Hpt).
  destruct (median_Permutation Hpt Ha0) as (m' & Hm' & Heq).
  exists {| data_airport := airport;
            data_season_snowfalls :=
              combine (map season_key analog_years') totals';
            data_median := m' |}.
  split; [| exact Heq].
  unfold analog_snowfalls.
  rewrite (@season_loop_total snowfall_data analog_years' totals' []);
    [| eapply Permutation_NoDup; eassumption | intros y _ [] | exact Hall'].
  simpl. rewrite values_combine
    by (rewrite length_map; eapply Forall2_length; exact Hall').
  rewrite Hm'. reflexivity.
Qed.

Lemma analog_snowfalls_any_order_witness :
  exists r',
    analog_snowfalls sample_snowfall [1967; 1965; 1966] "IAD"%string
    = Return r' /\
    (data_median r' == 20)%Q.
Proof.
  apply (@analog_snowfalls_any_order sample_snowfall [1965; 1966; 1967]
           [1967; 1965; 1966] "IAD"%string
           {| data_airport := "IAD"%string;
              data_season_snowfalls :=
                [("1965-66"%string, 15%Q); ("1966-67"%string, 20%Q);
                 ("1967-68"%string, 36%Q)];
              data_median := 20 |}).
  - repeat constructor; simpl; intuition lia.
  - apply perm_trans with (1965 :: 1967 :: [1966]).
    + apply perm_skip. apply perm_swap.
    + apply perm_swap.
  - reflexivity.
Defined.

(** ** What [check_accuracy] raises *)

Lemma accuracy_step_Raise oni_values pdo_values snowfall_data airport
  accuracy year e :
  accuracy_step oni_values pdo_values snowfall_data airport accuracy year
  = Raise e ->
  e = StatisticsError \/
  (exists k, e = Builtin (KeyError k) /\
             (~ In k (keys oni_values) \/ ~ In k (keys pdo_values))) \/
  (exists y, e = StrKeyError (str y) /\
             ~ In (str y) (map fst snowfall_data)) \/
  (e = Builtin ZeroDivisionError /\
   exists total, season_total snowfall_data year = Return total /\
                 (total == 0)%Q).
Proof.
  unfold accuracy_step. intros H.
  apply outcome_bind_Raise_inv in H. destruct H as [H | (ys & _ & H)].
  { destruct (get_analog oni_values pdo_values year 0 1964 1 5)
      as [ys | e0] eqn:Hg; [discriminate H |].
    injection H as <-. apply get_analog_Err_key in Hg.
    destruct Hg as [(k & -> & Hk) | [_ Hneg]]; [| lia].
    right; left. exists k. tauto. }
  apply outcome_bind_Raise_inv in H. destruct H as [H | (r & _ & H)].
  { apply analog_snowfalls_Raise_inv in H.
    destruct H as [[-> _] | (y & _ & -> & Hn)]; [left; reflexivity |].
    right; right; left. exists y. tauto. }
  apply outcome_bind_Raise_inv in H. destruct H as [H | (amounts & Ha & H)].
  { apply str_getitem_Raise in H. destruct H as [-> Hn].
    right; right; left. exists year. tauto. }
  apply outcome_bind_Raise_inv in H. destruct H as [H | (q & _ & H)];
    [| discriminate H].
  unfold truediv in H. destruct (Qeq_bool (sum amounts) 0) eqn:Hz;
    [| discriminate H].
  injection H as <-. right; right; right. split; [reflexivity |].
  exists (sum amounts). split.
  - unfold season_total. rewrite Ha. reflexivity.
  - apply Qeq_bool_iff. exact Hz.
Qed.

Lemma accuracy_loop_Raise oni_values pdo_values snowfall_data airport
  l accuracy e :
  outcome_foldM (accuracy_step oni_values pdo_values snowfall_data airport)
    l accuracy = Raise e ->
  exists year accuracy0,
    In year l /\
    accuracy_step oni_values pdo_values snowfall_data airport accuracy0 year
    = Raise e.
Proof.
  revert accuracy; induction l as [| x l IH]; simpl; intros accuracy H.
  - discriminate H.
  - apply outcome_bind_Raise_inv in H. destruct H as [H | (a & _ & H)].
    + exists x, accuracy. split; [left; reflexivity | exact H].
    + destruct (IH _ H) as (y & a0 & Hy & Hr). exists y, a0.
      split; [right; exact Hy | exact Hr].
Qed.

(** X23: [check_accuracy] raises nothing but: [StatisticsError] (a year without
    analog, or no year at all); the [KeyError] of a year that the ONI or the
    PDO series lacks; the [KeyError] of a year that the snowfall data lack;
    [ZeroDivisionError] for a checked year whose snowfall total is zero. *)
Theorem check_accuracy_exceptions (oni_values pdo_values : dict (list Q))
  (snowfall_data : str_dict (list Q)) (airport : string) (start_year : Z)
  (e : exception) :
  check_accuracy oni_values pdo_values snowfall_data airport start_year
  = Raise e ->
  e = StatisticsError \/
  (exists k, e = Builtin (KeyError k) /\
             (~ In k (keys oni_values) \/ ~ In k (keys pdo_values))) \/
  (exists y, e = StrKeyError (str y) /\
             ~ In (str y) (map fst snowfall_data)) \/
  (e = Builtin ZeroDivisionError /\
   exists year total,
     start_year <= year < 2022 /\
     season_total snowfall_data year = Return total /\ (total == 0)%Q).
Proof.
  unfold check_accuracy. intros H.
  apply outcome_bind_Raise_inv in H. destruct H as [H | (accuracy & _ & H)].
  - apply accuracy_loop_Raise in H. destruct H as (year & a0 & Hy & H).
    apply accuracy_step_Raise in H.
    destruct H as [H | [H | [H | [-> (total & Ht & Hz)]]]]; try tauto.
    right; right; right. split; [reflexivity |].
    exists year, total. apply range_In in Hy. tauto.
  - apply outcome_bind_Raise_inv in H. destruct H as [H | (m & _ & H)];
      [| discriminate H].
    left. unfold mean in H.
    destruct (length (values accuracy) =? 0)%nat; [| discriminate H].
    injection H as <-. reflexivity.
Qed.

Lemma check_accuracy_exceptions_witness :
  StatisticsError = StatisticsError \/
  (exists k, StatisticsError = Builtin (KeyError k) /\
             (~ In k (keys sample_oni) \/ ~ In k (keys sample_oni))) \/
  (exists y, StatisticsError = StrKeyError (str y) /\
             ~ In (str y) (map fst sample_snowfall)) \/
  (StatisticsError = Builtin ZeroDivisionError /\
   exists year total,
     1964 <= year < 2022 /\
     season_total sample_snowfall year = Return total /\ (total == 0)%Q).
Proof.
  apply (@check_accuracy_exceptions sample_oni sample_oni sample_snowfall
           "IAD"%string 1964).
  reflexivity.
Defined.
